(** * csnip memory pools (src/csnip/mempool.h)

    A shallow embedding of the functions that CSNIP_MEMPOOL_DEF_FUNCS
    generates for one item type: get_slab, init_empty, init_with_cap,
    deinit, alloc_item and free_item, over an explicit memory and an
    explicit allocator, followed by the properties of the pool. *)

From Stdlib Require Import ZArith List Bool Lia Permutation.
Import ListNotations.
Local Open Scope Z_scope.

(** ** Machine integers and pointers (LP64) *)

(** [size_t] is a 64-bit unsigned integer; arithmetic on it wraps. *)
Definition SIZE_MAX : Z := 2 ^ 64 - 1.
Definition wrap (z : Z) : Z := z mod 2 ^ 64.

(** sizeof(itemtype* ) and the null pointer. *)
Definition ptr_size : Z := 8.
Definition NULL : Z := 0.

(** Modelled from the spec: the code of the one error kind,
    AllocationFailure, that csnip_mem_Alloc raises; csnip/err.h is not under
    src/.  Nothing below depends on the value. *)
Definition csnip_err_NOMEM : Z := -2.

(** ** Memory, allocator and the caller's error variable *)

(** Calls made to the allocation collaborator, newest first. *)
Inductive event : Type :=
| EvAlloc (count size ret : Z)
| EvFree (ptr : Z).

(** The pointer values held in memory: address and value, newest first. *)
Definition cellmap : Type := list (Z * Z).

(** The program state the pool functions run in.  The allocator hands out
    consecutive blocks of the arena [brk, limit); [blocks] are the live
    blocks (base address, size in bytes); [cells] holds the pointer values
    that have been stored; [err] is the int that the [err] argument of the
    pool functions points to. *)
Record state : Type := mkState {
  brk : Z;
  limit : Z;
  blocks : list (Z * Z);
  cells : cellmap;
  err : Z;
  alloc_log : list event
}.

(** Outcome of a computation: a value and the state after it, an abort on
    a failed assert, or undefined behaviour (an invalid memory access or an
    invalid free), each with the state in which it happened. *)
Inductive result (A : Type) : Type :=
| Ok (a : A) (s : state)
| Abort (s : state)
| Fault (s : state).
Arguments Ok {A} a s.
Arguments Abort {A} s.
Arguments Fault {A} s.

Definition M (A : Type) : Type := state -> result A.

Definition ret {A : Type} (a : A) : M A := fun s => Ok a s.

Definition bind {A B : Type} (m : M A) (k : A -> M B) : M B :=
  fun s =>
    match m s with
    | Ok a s' => k a s'
    | Abort s' => Abort s'
    | Fault s' => Fault s'
    end.

Notation "x <- m ;; k" := (bind m (fun x => k))
  (at level 61, m at next level, right associativity).
Notation "m ;;; k" := (bind m (fun _ => k))
  (at level 61, right associativity).

Definition final_state {A : Type} (r : result A) : state :=
  match r with
  | Ok _ s => s
  | Abort s => s
  | Fault s => s
  end.

(** An access of [ptr_size] bytes at [a] is valid when [a] is not null and
    the bytes lie inside one live block. *)
Definition in_block (a : Z) (b : Z * Z) : bool :=
  (fst b <=? a) && (a + ptr_size <=? fst b + snd b).

Definition valid_access (a : Z) (s : state) : bool :=
  negb (a =? NULL) && existsb (in_block a) (blocks s).

(** The pointer stored at [x], if any. *)
Fixpoint get (c : cellmap) (x : Z) : option Z :=
  match c with
  | [] => None
  | kv :: r => if x =? fst kv then Some (snd kv) else get r x
  end.

(** [*((itemtype** )a)] read: undefined when the access is invalid or when
    no pointer has been stored there. *)
Definition load (a : Z) : M Z :=
  fun s =>
    if valid_access a s then
      match get (cells s) a with
      | Some v => Ok v s
      | None => Fault s
      end
    else Fault s.

(** The pointer cells at [a] and at [x] share a byte. *)
Definition overlaps (a x : Z) : bool :=
  (a - ptr_size <? x) && (x <? a + ptr_size).

Definition write_cell (a v : Z) (c : cellmap) : cellmap :=
  (a, v) :: filter (fun kv => negb (overlaps a (fst kv))) c.

Definition set_cells (c : cellmap) (s : state) : state :=
  mkState (brk s) (limit s) (blocks s) c (err s) (alloc_log s).

(** [*((itemtype** )a) = v]: the eight bytes at [a] now hold [v]; every
    other pointer cell that shares a byte with them is destroyed. *)
Definition store (a v : Z) : M unit :=
  fun s =>
    if valid_access a s then Ok tt (set_cells (write_cell a v (cells s)) s)
    else Fault s.

(** Modelled from the spec: csnip_mem_Alloc(count, ptr, err) of csnip/mem.h,
    which is not under src/.  "allocate_contiguous(count) -> block or
    AllocationFailure": storage for [count] contiguous elements of [size]
    bytes, or failure, which is reported by a null pointer and by raising
    the error through [err].  The collaborator is a bump allocator over the
    arena: a request fails exactly when the arena cannot hold it. *)
Definition mem_Alloc (count size : Z) : M Z :=
  fun s =>
    let bytes := count * size in
    if brk s + bytes <=? limit s then
      Ok (brk s)
         (mkState (brk s + bytes) (limit s) ((brk s, bytes) :: blocks s)
                  (cells s) (err s)
                  (EvAlloc count size (brk s) :: alloc_log s))
    else
      Ok NULL
         (mkState (brk s) (limit s) (blocks s) (cells s) csnip_err_NOMEM
                  (EvAlloc count size NULL :: alloc_log s)).

(** The state after a request that was served, and after one that was not. *)
Definition served (count size : Z) (s : state) : state :=
  mkState (brk s + count * size) (limit s)
          ((brk s, count * size) :: blocks s) (cells s) (err s)
          (EvAlloc count size (brk s) :: alloc_log s).

Definition refused (count size : Z) (s : state) : state :=
  mkState (brk s) (limit s) (blocks s) (cells s) csnip_err_NOMEM
          (EvAlloc count size NULL :: alloc_log s).

Definition remove_block (p : Z) (bl : list (Z * Z)) : list (Z * Z) :=
  filter (fun b => negb (fst b =? p)) bl.

Definition set_blocks (bl : list (Z * Z)) (s : state) : state :=
  mkState (brk s) (limit s) bl (cells s) (err s) (alloc_log s).

Definition log_event (e : event) (s : state) : state :=
  mkState (brk s) (limit s) (blocks s) (cells s) (err s) (e :: alloc_log s).

(** Modelled from the spec: csnip_mem_Free(ptr) of csnip/mem.h, which is
    not under src/.  "release_block(block)": frees a block previously
    returned by the allocator; as with free(), a null pointer is accepted
    and nothing happens; any other pointer that is not the base of a live
    block is undefined behaviour. *)
Definition mem_Free (p : Z) : M unit :=
  fun s =>
    if p =? NULL then Ok tt (log_event (EvFree p) s)
    else if existsb (fun b => fst b =? p) (blocks s) then
      Ok tt (log_event (EvFree p) (set_blocks (remove_block p (blocks s)) s))
    else Fault s.

(** [for (size_t i = i0; i < i0 + n; ++i) body(i)]. *)
Fixpoint for_loop (n : nat) (i : Z) (body : Z -> M unit) : M unit :=
  match n with
  | O => ret tt
  | S k => body i ;;; for_loop k (i + 1) body
  end.

(** [assert(c)]: compiled out under NDEBUG, an abort otherwise. *)
Definition assert (NDEBUG c : bool) : M unit :=
  fun s => if NDEBUG || c then Ok tt s else Abort s.

(** ** The pool *)

(** struct pooltype of CSNIP_MEMPOOL_DEF_TYPE. *)
Record pool : Type := mkPool {
  slabs : Z;
  n_slabs : Z;
  cap_slabs : Z;
  n_items : Z;
  first_free : Z
}.

Section Mempool.

(** sizeof(itemtype), and whether the functions are compiled with NDEBUG. *)
Variable isz : Z.
Variable NDEBUG : bool.

(** [&sl[i]]. *)
Definition item (sl i : Z) : Z := sl + i * isz.

(** Slab helper. *)
Definition get_slab (n_items : Z) : M Z :=
  sl <- mem_Alloc n_items isz ;;
  if sl =? NULL then ret NULL
  else
    for_loop (Z.to_nat (wrap (n_items - 1))) 0
      (fun i => store (item sl i) (item sl (i + 1))) ;;;
    store (item sl (wrap (n_items - 1))) NULL ;;;
    ret sl.

Definition init_empty : M pool :=
  ret (mkPool NULL 0 0 0 NULL).

Definition init_with_cap (cap : Z) : M pool :=
  sl <- get_slab cap ;;
  slabs <- mem_Alloc 1 ptr_size ;;
  store (slabs + 0 * ptr_size) sl ;;;
  ret (mkPool slabs 1 1 0 sl).

Definition deinit (p : pool) : M pool :=
  for_loop (Z.to_nat (n_slabs p)) 0
    (fun i => q <- load (slabs p + i * ptr_size) ;; mem_Free q) ;;;
  mem_Free (slabs p) ;;;
  ret (mkPool NULL 0 0 0 NULL).

(** The "more memory needed?" block of alloc_item. *)
Definition grow (p : pool) : M pool :=
  if first_free p =? NULL then
    let sz := n_items p in
    let sz := if sz <? 8 then 8 else sz in
    sl <- get_slab sz ;;
    ret (mkPool (slabs p) (n_slabs p) (cap_slabs p) (n_items p) sl)
  else ret p.

(** The "alloc and return" block of alloc_item. *)
Definition pop (p : pool) : M (Z * pool) :=
  let it := first_free p in
  assert NDEBUG (negb (it =? NULL)) ;;;
  let n := wrap (n_items p + 1) in
  nx <- load it ;;
  ret (it, mkPool (slabs p) (n_slabs p) (cap_slabs p) n nx).

Definition alloc_item (p : pool) : M (Z * pool) :=
  p1 <- grow p ;;
  pop p1.

Definition free_item (p : pool) (e : Z) : M pool :=
  store e (first_free p) ;;;
  ret (mkPool (slabs p) (n_slabs p) (cap_slabs p) (n_items p) e).

(** ** Well-formed states and the pool invariant *)

(** Live blocks lie in the used part of the arena, above address 0. *)
Definition block_ok (top : Z) (b : Z * Z) : Prop :=
  0 < fst b /\ 0 <= snd b /\ fst b + snd b <= top.

Definition state_wf (s : state) : Prop :=
  0 < brk s /\ Forall (block_ok (brk s)) (blocks s).

Definition state_wfb (s : state) : bool :=
  (0 <? brk s) &&
  forallb (fun b => (0 <? fst b) && (0 <=? snd b) &&
                    (fst b + snd b <=? brk s)) (blocks s).

(** The item at [a] is not null and lies inside one live block. *)
Definition item_ok (s : state) (a : Z) : Prop :=
  a <> NULL /\
  exists b, In b (blocks s) /\ fst b <= a /\ a + isz <= fst b + snd b.

(** Two items share no byte. *)
Definition apart (a b : Z) : Prop := a + isz <= b \/ b + isz <= a.

(** The free list: [F] are the items reached from [h] through the overlaid
    next pointers, up to the terminator. *)
Fixpoint chain (c : cellmap) (h : Z) (F : list Z) : Prop :=
  match F with
  | [] => h = NULL
  | x :: F' => h = x /\ exists nx, get c x = Some nx /\ chain c nx F'
  end.

(** The items [i, i+n) of the slab at [sl]. *)
Fixpoint slab_items (sl i : Z) (n : nat) : list Z :=
  match n with
  | O => []
  | S k => item sl i :: slab_items sl (i + 1) k
  end.

(** The pool [p] in state [s], with free list [F] and with the items [L]
    acquired and not yet released. *)
Record Inv (p : pool) (s : state) (F L : list Z) : Prop := mkInv {
  inv_wf : state_wf s;
  inv_count : 0 <= n_items p <= SIZE_MAX;
  inv_chain : chain (cells s) (first_free p) F;
  inv_nodup_free : NoDup F;
  inv_nodup_live : NoDup L;
  inv_disjoint : forall a, In a F -> ~ In a L;
  inv_apart : forall a b, In a (F ++ L) -> In b (F ++ L) -> a <> b -> apart a b;
  inv_items : forall a, In a (F ++ L) -> item_ok s a
}.

(** The slab array of [p] is absent, or it is a live block of one entry
    that no item in [FL] overlaps and that holds the null pointer or the
    base of another live block. *)
Definition index_ok (p : pool) (s : state) (FL : list Z) : Prop :=
  (slabs p = NULL /\ n_slabs p = 0) \/
  (n_slabs p = 1 /\ slabs p <> NULL /\
   In (slabs p, 1 * ptr_size) (blocks s) /\
   (forall a, In a FL -> a + isz <= slabs p \/ slabs p + ptr_size <= a) /\
   exists sl,
     get (cells s) (slabs p) = Some sl /\
     (sl = NULL \/ (sl <> slabs p /\ exists sz, In (sl, sz) (blocks s)))).

(** The pools that a client can build: construction, then acquisitions,
    releases of items that are acquired and not yet released, writes of the
    client into the items it holds, and other uses of the allocator.  The
    list is the items currently held. *)
Inductive reachable : pool -> state -> list Z -> Prop :=
| reach_init_empty s p s' :
    state_wf s -> init_empty s = Ok p s' -> reachable p s' []
| reach_init_with_cap cap s p s' :
    state_wf s -> 0 < cap <= SIZE_MAX ->
    init_with_cap cap s = Ok p s' -> reachable p s' []
| reach_alloc p s L x p' s' :
    reachable p s L -> alloc_item p s = Ok (x, p') s' ->
    reachable p' s' (x :: L)
| reach_free p s L e p' s' :
    reachable p s L -> In e L -> free_item p e s = Ok p' s' ->
    reachable p' s' (remove Z.eq_dec e L)
| reach_write p s L e a v s' :
    reachable p s L -> In e L -> e <= a -> a + ptr_size <= e + isz ->
    store a v s = Ok tt s' -> reachable p s' L
| reach_other_alloc p s L count size r s' :
    reachable p s L -> 0 <= count * size ->
    mem_Alloc count size s = Ok r s' -> reachable p s' L.

End Mempool.

(** ** Scenario drivers *)

(** [n] acquisitions in a row, and the release of a list of items. *)
Fixpoint alloc_items (isz : Z) (NDEBUG : bool) (n : nat) (p : pool)
  : M (list Z * pool) :=
  match n with
  | O => ret ([], p)
  | S k =>
      xp <- alloc_item isz NDEBUG p ;;
      r <- alloc_items isz NDEBUG k (snd xp) ;;
      ret (fst xp :: fst r, snd r)
  end.

Fixpoint free_items (l : list Z) (p : pool) : M pool :=
  match l with
  | [] => ret p
  | e :: r => p' <- free_item p e ;; free_items r p'
  end.

(** A sequence of acquisitions and releases, run from left to right. *)
Inductive op : Type :=
| Acquire
| Release (e : Z).

Fixpoint run_ops (isz : Z) (NDEBUG : bool) (ops : list op) (p : pool)
  : M pool :=
  match ops with
  | [] => ret p
  | Acquire :: r =>
      xp <- alloc_item isz NDEBUG p ;; run_ops isz NDEBUG r (snd xp)
  | Release e :: r =>
      p' <- free_item p e ;; run_ops isz NDEBUG r p'
  end.

Fixpoint acquisitions (ops : list op) : Z :=
  match ops with
  | [] => 0
  | Acquire :: r => 1 + acquisitions r
  | Release _ :: r => acquisitions r
  end.

(** ** Concrete runs *)

(** An arena [lo, hi) in which nothing has been allocated or written, and
    the all-zero pool. *)
Definition arena (lo hi : Z) : state :=
  mkState lo hi [] [] 0 [].

Definition empty_pool : pool := mkPool NULL 0 0 0 NULL.

Definition value_of {A : Type} (d : A) (r : result A) : A :=
  match r with
  | Ok a _ => a
  | _ => d
  end.

(** Items of 16 bytes, asserts enabled: an empty pool, one acquisition (which
    grows the pool), the release of the item, and deinit. *)
Definition leak_run : M pool :=
  p <- init_empty ;;
  xp <- alloc_item 16 false p ;;
  p' <- free_item (snd xp) (fst xp) ;;
  deinit p'.

(** A pool of capacity 4, five acquisitions (the fifth grows the pool) and
    the release of the five items; then deinit. *)
Definition used_pool : M pool :=
  p <- init_with_cap 16 4 ;;
  r <- alloc_items 16 false 5 p ;;
  free_items (fst r) (snd r).

Definition leak_run_cap : M pool :=
  p' <- used_pool ;;
  deinit p'.

(** A pool of capacity 4 and four acquisitions. *)
Definition drained_pool : M pool :=
  p <- init_with_cap 16 4 ;;
  r <- alloc_items 16 false 4 p ;;
  ret (snd r).

(** The pool and the state after one acquisition from the empty pool in
    the arena [4096, 8192). *)
Definition pool1 : pool := mkPool NULL 0 0 1 4112.

Definition state1 : state :=
  Eval vm_compute in
    final_state (alloc_item 16 false empty_pool (arena 4096 8192)).

(** The same pool with its counter at SIZE_MAX. *)
Definition pool_max : pool := mkPool NULL 0 0 SIZE_MAX 4112.

(** The states in which the runs above end. *)
Definition state_leak : state :=
  Eval vm_compute in final_state (leak_run (arena 4096 8192)).

Definition pool_used : pool :=
  Eval vm_compute in value_of empty_pool (used_pool (arena 4096 8192)).

Definition state_used : state :=
  Eval vm_compute in final_state (used_pool (arena 4096 8192)).

Definition state_leak_cap : state :=
  Eval vm_compute in final_state (leak_run_cap (arena 4096 8192)).

Definition pool_drained : pool :=
  Eval vm_compute in value_of empty_pool (drained_pool (arena 4096 4168)).

Definition state_drained : state :=
  Eval vm_compute in final_state (drained_pool (arena 4096 4168)).

Definition state_no_index : state :=
  Eval vm_compute in final_state (init_with_cap 16 4 (arena 4096 4160)).

Definition state_no_slab : state :=
  Eval vm_compute in final_state (init_with_cap 16 4 (arena 4096 4104)).

(** A computation that leaves the log of allocator calls as it was. *)
Definition log_stable {A : Type} (m : M A) : Prop :=
  forall s, alloc_log (final_state (m s)) = alloc_log s.

(** One acquisition, its release, and then eight acquisitions, from the
    empty pool in the arena [4096, 8192): nine acquisitions, eight items
    held, free list empty. *)
Definition ops_churn : list op :=
  Acquire :: Release 4096 :: repeat Acquire 8.

Definition pool_churn : pool :=
  Eval vm_compute in
    value_of empty_pool (run_ops 16 false ops_churn empty_pool
                                 (arena 4096 8192)).

Definition state_churn : state :=
  Eval vm_compute in
    final_state (run_ops 16 false ops_churn empty_pool (arena 4096 8192)).

(** The capacity [C] that a run of [n] acquisitions from the empty pool has
    allocated: nothing before the first one, one slab of 8 items up to the
    eighth, and then at least [n] and less than [2 * n] items. *)
Definition tight (C n : Z) : Prop :=
  (n = 0 /\ C = 0) \/ (1 <= n <= 8 /\ C = 8) \/ (8 < n <= C /\ C < 2 * n).

(** A computation that changes nothing but the stored pointers. *)
Definition cells_only {A : Type} (m : M A) : Prop :=
  forall s a s', m s = Ok a s' ->
    brk s' = brk s /\ limit s' = limit s /\ blocks s' = blocks s /\
    err s' = err s /\ alloc_log s' = alloc_log s.

(** ** Memory lemmas *)

Lemma write_cell_same a v c : get (write_cell a v c) a = Some v.
Proof. unfold write_cell. simpl. now rewrite Z.eqb_refl. Qed.

Lemma get_filter f c x :
  (forall kv, fst kv = x -> f kv = true) -> get (filter f c) x = get c x.
Proof.
  intros Hf. induction c as [|kv r IH]; simpl; [reflexivity|].
  destruct (f kv) eqn:E; simpl.
  - now rewrite IH.
  - destruct (Z.eqb_spec x (fst kv)) as [->|_]; [|exact IH].
    rewrite Hf in E by reflexivity. discriminate.
Qed.

Lemma write_cell_other a v c x :
  x <= a - ptr_size \/ a + ptr_size <= x ->
  get (write_cell a v c) x = get c x.
Proof.
  intros H. unfold write_cell. simpl.
  destruct (Z.eqb_spec x a); [unfold ptr_size in *; lia|].
  apply get_filter. intros kv <-. unfold overlaps, ptr_size in *.
  destruct (Z.ltb_spec (a - 8) (fst kv)), (Z.ltb_spec (fst kv) (a + 8));
    simpl; auto; lia.
Qed.

Arguments write_cell : simpl never.
Arguments get : simpl never.

Lemma valid_access_set_cells a c s :
  valid_access a (set_cells c s) = valid_access a s.
Proof. reflexivity. Qed.

Lemma valid_access_spec a s :
  valid_access a s = true <->
  a <> NULL /\ exists b, In b (blocks s) /\
                         fst b <= a /\ a + ptr_size <= fst b + snd b.
Proof.
  unfold valid_access, in_block.
  rewrite andb_true_iff, negb_true_iff, Z.eqb_neq, existsb_exists.
  split; intros [H0 [b [Hb H]]]; (split; [assumption|exists b; split; [assumption|]]).
  - apply andb_true_iff in H. lia.
  - apply andb_true_iff. lia.
Qed.

Lemma store_ok a v s :
  valid_access a s = true ->
  store a v s = Ok tt (set_cells (write_cell a v (cells s)) s).
Proof. intros H. unfold store. now rewrite H. Qed.

Lemma load_ok a v s :
  valid_access a s = true -> get (cells s) a = Some v -> load a s = Ok v s.
Proof. intros H1 H2. unfold load. now rewrite H1, H2. Qed.

Lemma load_inv a v s s' :
  load a s = Ok v s' ->
  s' = s /\ valid_access a s = true /\ get (cells s) a = Some v.
Proof.
  unfold load. destruct (valid_access a s); [|discriminate].
  destruct (get (cells s) a); [|discriminate].
  intros H; inversion H; subst; auto.
Qed.

Lemma bind_ok {A B} (m : M A) (k : A -> M B) s a s' :
  m s = Ok a s' -> bind m k s = k a s'.
Proof. intros H. unfold bind. now rewrite H. Qed.

Lemma bind_inv {A B} (m : M A) (k : A -> M B) s b s2 :
  bind m k s = Ok b s2 -> exists a s1, m s = Ok a s1 /\ k a s1 = Ok b s2.
Proof.
  unfold bind. destruct (m s) as [a s1| |]; try discriminate.
  intros H. now exists a, s1.
Qed.

(** ** The collaborator's log is only touched by the collaborator *)

Lemma log_stable_ret {A} (a : A) : log_stable (ret a).
Proof. intros s. reflexivity. Qed.

Lemma log_stable_bind {A B} (m : M A) (k : A -> M B) :
  log_stable m -> (forall a, log_stable (k a)) -> log_stable (bind m k).
Proof.
  intros Hm Hk s. unfold bind. specialize (Hm s).
  destruct (m s) as [a s1| |]; simpl in *; auto.
  rewrite Hk. assumption.
Qed.

Lemma log_stable_store a v : log_stable (store a v).
Proof. intros s. unfold store. now destruct (valid_access a s). Qed.

Lemma log_stable_load a : log_stable (load a).
Proof.
  intros s. unfold load. destruct (valid_access a s); auto.
  now destruct (get (cells s) a).
Qed.

Lemma log_stable_assert b c : log_stable (assert b c).
Proof. intros s. unfold assert. now destruct (b || c). Qed.

Lemma log_stable_for_loop n body :
  (forall i, log_stable (body i)) -> forall i, log_stable (for_loop n i body).
Proof.
  intros Hb. induction n as [|n IH]; intros i; simpl.
  - apply log_stable_ret.
  - apply log_stable_bind; auto.
Qed.

Lemma log_stable_pop b p : log_stable (pop b p).
Proof.
  unfold pop. apply log_stable_bind; [apply log_stable_assert|intros _].
  apply log_stable_bind; [apply log_stable_load|intros; apply log_stable_ret].
Qed.

Lemma log_stable_free_item p e : log_stable (free_item p e).
Proof.
  unfold free_item.
  apply log_stable_bind; [apply log_stable_store|intros; apply log_stable_ret].
Qed.

(** ** The slab helper *)

Section PoolProperties.

Variable isz : Z.
Variable NDEBUG : bool.

(** The _Static_assert of CSNIP_MEMPOOL_DEF_FUNCS:
    sizeof(itemtype) >= sizeof(itemtype* ). *)
Hypothesis isz_ok : ptr_size <= isz.

Lemma item_step sl i : item isz sl (i + 1) = item isz sl i + isz.
Proof. unfold item. ring. Qed.

Lemma item_mono sl i j : i <= j -> item isz sl i <= item isz sl j.
Proof. unfold item, ptr_size in *. intros. nia. Qed.

(** The linking loop of get_slab, started at item [i] with [n] rounds to
    go, inside the block [(sl, sz)]. *)
Lemma link_loop_ok sl sz n : forall i s,
  0 < sl -> In (sl, sz) (blocks s) ->
  0 <= i -> item isz sl (i + Z.of_nat n) + ptr_size <= sl + sz ->
  exists c,
    for_loop n i (fun i => store (item isz sl i) (item isz sl (i + 1))) s
      = Ok tt (set_cells c s) /\
    (forall j, i <= j < i + Z.of_nat n ->
               get c (item isz sl j) = Some (item isz sl (j + 1))) /\
    (forall x, x <= item isz sl i - ptr_size \/
               item isz sl (i + Z.of_nat n) <= x -> get c x = get (cells s) x).
Proof.
  induction n as [|n IH]; intros i s Hnull Hin Hi Hend.
  - exists (cells s). simpl. split; [destruct s; reflexivity|].
    split; [lia|auto].
  - assert (Hv : valid_access (item isz sl i) s = true).
    { apply valid_access_spec. unfold ptr_size, NULL in *.
      assert (item isz sl i <= item isz sl (i + Z.of_nat (S n)))
        by (apply item_mono; lia).
      assert (sl <= item isz sl i) by (unfold item; nia).
      split.
      - unfold item in *. nia.
      - exists (sl, sz). simpl. repeat split; auto; lia. }
    simpl for_loop. rewrite (bind_ok _ _ _ _ _ (store_ok _ _ _ Hv)).
    destruct (IH (i + 1)
                (set_cells (write_cell (item isz sl i) (item isz sl (i + 1))
                                       (cells s)) s))
      as [c [Hrun [Hlink Hout]]]; auto; try lia.
    { replace (i + 1 + Z.of_nat n) with (i + Z.of_nat (S n)) by lia. auto. }
    exists c. split; [exact Hrun|]. simpl cells in Hout.
    pose proof (item_step sl i) as Hs.
    assert (Hm : item isz sl (i + 1) <= item isz sl (i + Z.of_nat (S n)))
      by (apply item_mono; lia).
    replace (i + 1 + Z.of_nat n) with (i + Z.of_nat (S n)) in Hout by lia.
    unfold ptr_size in *. split.
    + intros j Hj. destruct (Z.eq_dec j i) as [->|Hne].
      * rewrite Hout, write_cell_same; [reflexivity|]. left. lia.
      * apply Hlink. lia.
    + intros x Hx. rewrite Hout.
      * apply write_cell_other. unfold ptr_size. lia.
      * destruct Hx as [Hx|Hx]; [left; lia|right; auto].
Qed.

Lemma mem_Alloc_served count size s :
  brk s + count * size <= limit s ->
  mem_Alloc count size s = Ok (brk s) (served count size s).
Proof.
  intros H. unfold mem_Alloc. simpl.
  destruct (Z.leb_spec (brk s + count * size) (limit s)); [reflexivity|lia].
Qed.

Lemma mem_Alloc_refused count size s :
  limit s < brk s + count * size ->
  mem_Alloc count size s = Ok NULL (refused count size s).
Proof.
  intros H. unfold mem_Alloc. simpl.
  destruct (Z.leb_spec (brk s + count * size) (limit s)); [lia|reflexivity].
Qed.

Lemma wrap_small z : 0 <= z <= SIZE_MAX -> wrap z = z.
Proof. unfold wrap, SIZE_MAX. intros H. apply Z.mod_small. lia. Qed.

(** When the arena has room, get_slab returns the new block with every item
    linked to the next one and the last one to the terminator; no cell
    outside the new slab is touched. *)
Lemma get_slab_served g s :
  0 < brk s -> 1 <= g <= SIZE_MAX -> brk s + g * isz <= limit s ->
  exists c,
    get_slab isz g s = Ok (brk s) (set_cells c (served g isz s)) /\
    (forall j, 0 <= j < g - 1 ->
               get c (item isz (brk s) j) = Some (item isz (brk s) (j + 1))) /\
    get c (item isz (brk s) (g - 1)) = Some NULL /\
    (forall x, x <= brk s - ptr_size \/ brk s + g * isz <= x ->
               get c x = get (cells s) x).
Proof.
  intros Hbrk Hg Hroom. unfold get_slab.
  rewrite (bind_ok _ _ _ _ _ (mem_Alloc_served _ _ _ Hroom)).
  destruct (Z.eqb_spec (brk s) NULL) as [E|_]; [unfold NULL in E; lia|].
  rewrite wrap_small by (unfold SIZE_MAX in *; lia).
  assert (Hlast : item isz (brk s) (g - 1) + isz = brk s + g * isz)
    by (unfold item; ring).
  destruct (link_loop_ok (brk s) (g * isz) (Z.to_nat (g - 1)) 0
                         (served g isz s))
    as [c [Hrun [Hlink Hout]]]; simpl; auto; try lia.
  { rewrite Z2Nat.id by lia. unfold ptr_size in *. simpl. lia. }
  rewrite Z2Nat.id in * by lia. simpl in Hlink, Hout.
  rewrite (bind_ok _ _ _ _ _ Hrun).
  assert (Hv : valid_access (item isz (brk s) (g - 1))
                            (set_cells c (served g isz s)) = true).
  { apply valid_access_spec. unfold ptr_size, NULL in *.
    assert (brk s <= item isz (brk s) (g - 1)) by (unfold item; nia).
    split; [lia|]. exists (brk s, g * isz). simpl. repeat split; auto; lia. }
  rewrite (bind_ok _ _ _ _ _ (store_ok _ _ _ Hv)).
  eexists. split; [reflexivity|]. simpl.
  assert (Hz : item isz (brk s) 0 = brk s) by (unfold item; ring).
  rewrite Hz in Hout. unfold ptr_size in *. split; [|split].
  - intros j Hj. rewrite write_cell_other.
    + apply Hlink. lia.
    + left. assert (item isz (brk s) (j + 1) <= item isz (brk s) (g - 1))
        by (apply item_mono; lia).
      rewrite item_step in *. unfold ptr_size. lia.
  - apply write_cell_same.
  - intros x Hx. rewrite write_cell_other.
    + apply Hout. assert (brk s <= item isz (brk s) (g - 1))
        by (unfold item; nia). lia.
    + unfold ptr_size.
      assert (brk s <= item isz (brk s) (g - 1)) by (unfold item; nia). lia.
Qed.

(** When the arena is exhausted, get_slab reports the failure and returns
    the null pointer. *)
Lemma get_slab_refused g s :
  limit s < brk s + g * isz ->
  get_slab isz g s = Ok NULL (refused g isz s).
Proof.
  intros H. unfold get_slab.
  rewrite (bind_ok _ _ _ _ _ (mem_Alloc_refused _ _ _ H)). reflexivity.
Qed.

(** ** Free lists *)

Lemma chain_ext c c' F : forall h,
  chain c h F -> (forall x, In x F -> get c' x = get c x) -> chain c' h F.
Proof.
  induction F as [|x F IH]; intros h Hc He; simpl in *; auto.
  destruct Hc as [-> [nx [Hx Hc]]]. split; [reflexivity|].
  exists nx. split; [rewrite He; auto|]. apply IH; auto.
Qed.

Lemma chain_slab c sl n : forall i,
  (forall j, i <= j < i + Z.of_nat n ->
             get c (item isz sl j) = Some (item isz sl (j + 1))) ->
  get c (item isz sl (i + Z.of_nat n)) = Some NULL ->
  chain c (item isz sl i) (slab_items isz sl i (S n)).
Proof.
  induction n as [|n IH]; intros i Hlink Hlast.
  - simpl. split; [reflexivity|]. exists NULL.
    replace (i + Z.of_nat 0) with i in Hlast by lia. auto.
  - change (slab_items isz sl i (S (S n)))
      with (item isz sl i :: slab_items isz sl (i + 1) (S n)).
    split; [reflexivity|]. exists (item isz sl (i + 1)). split.
    + apply Hlink. lia.
    + apply IH.
      * intros j Hj. apply Hlink. lia.
      * replace (i + 1 + Z.of_nat n) with (i + Z.of_nat (S n)) by lia. auto.
Qed.

Lemma in_slab_items sl n : forall i a,
  In a (slab_items isz sl i n) <->
  exists j, i <= j < i + Z.of_nat n /\ a = item isz sl j.
Proof.
  induction n as [|n IH]; intros i a.
  - simpl. split; [tauto|]. intros [j [Hj _]]. lia.
  - change (slab_items isz sl i (S n))
      with (item isz sl i :: slab_items isz sl (i + 1) n).
    simpl In. rewrite IH. split.
    + intros [<-|[j [Hj ->]]]; [exists i|exists j]; split; auto; lia.
    + intros [j [Hj ->]]. destruct (Z.eq_dec j i) as [->|Hne]; [now left|].
      right. exists j. split; auto. lia.
Qed.

Lemma item_apart sl i j : i <> j -> apart isz (item isz sl i) (item isz sl j).
Proof.
  intros H. unfold apart, item, ptr_size in *. nia.
Qed.

Lemma apart_neq a b : apart isz a b -> a <> b.
Proof. unfold apart, ptr_size in *. lia. Qed.

Lemma NoDup_slab_items sl n : forall i, NoDup (slab_items isz sl i n).
Proof.
  induction n as [|n IH]; intros i; simpl; constructor; auto.
  rewrite in_slab_items. intros [j [Hj E]].
  assert (i <> j) by lia.
  apply (apart_neq _ _ (item_apart sl i j H)). assumption.
Qed.

(** ** The invariant is kept by every step *)

Lemma state_wf_set_cells c s : state_wf s -> state_wf (set_cells c s).
Proof. auto. Qed.

Lemma state_wf_served count size s :
  0 <= count * size -> state_wf s -> state_wf (served count size s).
Proof.
  intros Hb [Hbrk Hbl]. split; simpl; [lia|].
  constructor.
  - unfold block_ok. simpl. lia.
  - eapply Forall_impl; [|exact Hbl].
    unfold block_ok. intros b. lia.
Qed.

Lemma item_ok_blocks s s' a :
  incl (blocks s) (blocks s') -> item_ok isz s a -> item_ok isz s' a.
Proof.
  intros Hi [Hn [b [Hb H]]]. split; auto. exists b. split; auto.
Qed.

Lemma item_ok_below s a : state_wf s -> item_ok isz s a -> a + isz <= brk s.
Proof.
  intros [_ Hbl] [_ [b [Hb H]]].
  rewrite Forall_forall in Hbl. specialize (Hbl b Hb).
  unfold block_ok in Hbl. lia.
Qed.

Lemma item_ok_valid s a : item_ok isz s a -> valid_access a s = true.
Proof.
  intros [Hn [b [Hb H]]]. apply valid_access_spec. split; auto.
  exists b. split; auto. lia.
Qed.

Lemma inv_pool p p' s F L :
  n_items p' = n_items p -> first_free p' = first_free p ->
  Inv isz p s F L -> Inv isz p' s F L.
Proof.
  intros Hn Hf [H1 H2 H3 H4 H5 H6 H7 H8].
  constructor; auto; congruence.
Qed.

(** A store that misses every free item keeps the invariant. *)
Lemma inv_store p s F L a v :
  Inv isz p s F L -> valid_access a s = true ->
  (forall x, In x F -> x <= a - ptr_size \/ a + ptr_size <= x) ->
  Inv isz p (set_cells (write_cell a v (cells s)) s) F L.
Proof.
  intros [H1 H2 H3 H4 H5 H6 H7 H8] Hv Hmiss.
  constructor; auto.
  simpl. eapply chain_ext; [exact H3|].
  intros x Hx. apply write_cell_other. auto.
Qed.

Lemma inv_served p s F L count size :
  0 <= count * size -> Inv isz p s F L -> Inv isz p (served count size s) F L.
Proof.
  intros Hb [H1 H2 H3 H4 H5 H6 H7 H8].
  constructor; auto using state_wf_served.
  intros x Hx. eapply item_ok_blocks; [|apply H8; exact Hx].
  simpl. apply incl_tl, incl_refl.
Qed.

Lemma inv_refused p s F L count size :
  Inv isz p s F L -> Inv isz p (refused count size s) F L.
Proof.
  intros [H1 H2 H3 H4 H5 H6 H7 H8]. constructor; auto.
Qed.

(** A freshly linked slab becomes the free list of a pool whose free list
    was empty. *)
Lemma inv_slab p s L g c sl :
  Inv isz p s [] L -> 1 <= g <= SIZE_MAX -> sl = brk s ->
  (forall j, 0 <= j < g - 1 ->
             get c (item isz sl j) = Some (item isz sl (j + 1))) ->
  get c (item isz sl (g - 1)) = Some NULL ->
  Inv isz (mkPool (slabs p) (n_slabs p) (cap_slabs p) (n_items p) sl)
      (set_cells c (served g isz s))
      (slab_items isz sl 0 (Z.to_nat g)) L.
Proof.
  intros [H1 H2 H3 H4 H5 H6 H7 H8] Hg -> Hlink Hlast.
  assert (Hpos : 0 <= g * isz) by (unfold ptr_size in *; nia).
  assert (Hold : forall a, In a L -> a + isz <= brk s).
  { intros a Ha. apply item_ok_below; auto. }
  assert (Hnew : forall a, In a (slab_items isz (brk s) 0 (Z.to_nat g)) ->
                   brk s <= a /\ a + isz <= brk s + g * isz).
  { intros a Ha. apply in_slab_items in Ha. destruct Ha as [j [Hj ->]].
    rewrite Z2Nat.id in Hj by lia. unfold item, ptr_size in *. nia. }
  constructor; simpl.
  - apply state_wf_set_cells, state_wf_served; auto.
  - assumption.
  - replace (brk s) with (item isz (brk s) 0) at 1 by (unfold item; ring).
    replace (Z.to_nat g) with (S (Z.to_nat (g - 1))) by lia.
    apply chain_slab; rewrite Z2Nat.id by lia; auto.
  - apply NoDup_slab_items.
  - assumption.
  - intros a Ha Hl. apply Hnew in Ha. apply Hold in Hl.
    unfold ptr_size in *. lia.
  - intros a b Ha Hb Hne. apply in_app_or in Ha, Hb.
    destruct Ha as [Ha|Ha], Hb as [Hb|Hb].
    + apply in_slab_items in Ha, Hb.
      destruct Ha as [i [_ ->]], Hb as [j [_ ->]].
      apply item_apart. congruence.
    + apply Hnew in Ha. apply Hold in Hb. right. lia.
    + apply Hold in Ha. apply Hnew in Hb. left. lia.
    + apply H7; auto.
  - intros a Ha. apply in_app_or in Ha. destruct Ha as [Ha|Ha].
    + apply Hnew in Ha. split.
      * destruct H1 as [Hb _]. unfold NULL. lia.
      * exists (brk s, g * isz). simpl. split; [now left|lia].
    + eapply item_ok_blocks; [|apply H8; exact Ha].
      simpl. apply incl_tl, incl_refl.
Qed.

Lemma wrap_range z : 0 <= wrap z <= SIZE_MAX.
Proof.
  unfold wrap, SIZE_MAX.
  pose proof (Z.mod_pos_bound z (2 ^ 64)). lia.
Qed.

(** With a non-empty free list, the second block of alloc_item returns the
    head and moves the head to its successor; memory is not touched. *)
Lemma inv_pop p s x F L :
  Inv isz p s (x :: F) L ->
  exists nx,
    pop NDEBUG p s =
      Ok (x, mkPool (slabs p) (n_slabs p) (cap_slabs p)
                    (wrap (n_items p + 1)) nx) s /\
    Inv isz (mkPool (slabs p) (n_slabs p) (cap_slabs p)
                    (wrap (n_items p + 1)) nx) s F (x :: L).
Proof.
  intros [H1 H2 H3 H4 H5 H6 H7 H8].
  destruct H3 as [Hh [nx [Hx Hc]]]. exists nx.
  assert (Hok : item_ok isz s x) by (apply H8; now left).
  split.
  - unfold pop, assert, bind. rewrite Hh.
    destruct Hok as [Hn _]. apply Z.eqb_neq in Hn as Hn'. rewrite Hn'.
    rewrite orb_true_r.
    rewrite (load_ok x nx s); auto. apply item_ok_valid. split; auto.
    apply (H8 x). now left.
  - inversion H4; subst. constructor; simpl; auto.
    + apply wrap_range.
    + constructor; auto. apply H6. now left.
    + intros a Ha [E|Hl]; [congruence|].
      apply (H6 a); auto. now right.
    + intros a b Ha Hb. apply H7.
      * apply in_app_or in Ha. destruct Ha as [Ha|[Ha|Ha]]; simpl; auto.
        -- right. apply in_or_app. auto.
        -- right. apply in_or_app. auto.
      * apply in_app_or in Hb. destruct Hb as [Hb|[Hb|Hb]]; simpl; auto.
        -- right. apply in_or_app. auto.
        -- right. apply in_or_app. auto.
    + intros a Ha. apply H8.
      apply in_app_or in Ha. destruct Ha as [Ha|[Ha|Ha]]; simpl; auto.
      * right. apply in_or_app. auto.
      * right. apply in_or_app. auto.
Qed.

Lemma NoDup_remove_dec (e : Z) L :
  NoDup L -> NoDup (remove Z.eq_dec e L).
Proof.
  induction 1 as [|x L Hx Hn IH]; simpl; [constructor|].
  destruct (Z.eq_dec e x); auto.
  constructor; auto. intros Hin. apply in_remove in Hin. tauto.
Qed.

(** free_item pushes a held item onto the free list. *)
Lemma inv_free p s F L e :
  Inv isz p s F L -> In e L ->
  free_item p e s =
    Ok (mkPool (slabs p) (n_slabs p) (cap_slabs p) (n_items p) e)
       (set_cells (write_cell e (first_free p) (cells s)) s) /\
  Inv isz (mkPool (slabs p) (n_slabs p) (cap_slabs p) (n_items p) e)
      (set_cells (write_cell e (first_free p) (cells s)) s)
      (e :: F) (remove Z.eq_dec e L).
Proof.
  intros [H1 H2 H3 H4 H5 H6 H7 H8] He.
  assert (Hok : item_ok isz s e) by (apply H8, in_or_app; auto).
  assert (HeF : ~ In e F) by (intros HF; apply (H6 e); auto).
  split.
  - unfold free_item.
    rewrite (bind_ok _ _ _ _ _ (store_ok _ _ _ (item_ok_valid _ _ Hok))).
    reflexivity.
  - constructor; simpl; auto.
    + split; [reflexivity|]. exists (first_free p).
      split; [apply write_cell_same|].
      eapply chain_ext; [exact H3|]. intros x Hx.
      apply write_cell_other.
      assert (apart isz x e).
      { apply H7; [apply in_or_app; auto|apply in_or_app; auto|congruence]. }
      unfold apart, ptr_size in *. lia.
    + constructor; auto.
    + apply NoDup_remove_dec; auto.
    + intros a [<-|Ha] Hr.
      * apply in_remove in Hr. tauto.
      * apply in_remove in Hr. apply (H6 a); tauto.
    + intros a b Ha Hb. apply H7.
      * destruct Ha as [<-|Ha]; [apply in_or_app; auto|].
        apply in_app_or in Ha. apply in_or_app.
        destruct Ha as [Ha|Ha]; auto. apply in_remove in Ha. tauto.
      * destruct Hb as [<-|Hb]; [apply in_or_app; auto|].
        apply in_app_or in Hb. apply in_or_app.
        destruct Hb as [Hb|Hb]; auto. apply in_remove in Hb. tauto.
    + intros a Ha.
      assert (Hin : In a (F ++ L)).
      { destruct Ha as [<-|Ha]; [apply in_or_app; auto|].
        apply in_app_or in Ha. apply in_or_app.
        destruct Ha as [Ha|Ha]; auto. apply in_remove in Ha. tauto. }
      eapply item_ok_blocks; [|apply H8; exact Hin]. apply incl_refl.
Qed.

(** ** The two blocks of alloc_item *)

Lemma growth_size n : (if n <? 8 then 8 else n) = Z.max 8 n.
Proof. destruct (Z.ltb_spec n 8); lia. Qed.

Lemma growth_range n : 0 <= n <= SIZE_MAX -> 1 <= Z.max 8 n <= SIZE_MAX.
Proof. unfold SIZE_MAX. lia. Qed.

Lemma grow_nonempty p s : first_free p <> NULL -> grow isz p s = Ok p s.
Proof.
  intros H. unfold grow. apply Z.eqb_neq in H. now rewrite H.
Qed.

Lemma grow_served p s :
  first_free p = NULL -> 0 < brk s -> 0 <= n_items p <= SIZE_MAX ->
  brk s + Z.max 8 (n_items p) * isz <= limit s ->
  exists c,
    grow isz p s =
      Ok (mkPool (slabs p) (n_slabs p) (cap_slabs p) (n_items p) (brk s))
         (set_cells c (served (Z.max 8 (n_items p)) isz s)) /\
    (forall j, 0 <= j < Z.max 8 (n_items p) - 1 ->
               get c (item isz (brk s) j) = Some (item isz (brk s) (j + 1))) /\
    get c (item isz (brk s) (Z.max 8 (n_items p) - 1)) = Some NULL /\
    (forall x, x <= brk s - ptr_size \/
               brk s + Z.max 8 (n_items p) * isz <= x -> get c x = get (cells s) x).
Proof.
  intros Hf Hb Hn Hroom. unfold grow. rewrite Hf, Z.eqb_refl.
  cbv zeta. rewrite growth_size.
  destruct (get_slab_served (Z.max 8 (n_items p)) s) as [c [Hrun Hc]];
    auto using growth_range.
  exists c. split; [|exact Hc].
  now rewrite (bind_ok _ _ _ _ _ Hrun).
Qed.

Lemma grow_refused p s :
  first_free p = NULL ->
  limit s < brk s + Z.max 8 (n_items p) * isz ->
  grow isz p s =
    Ok (mkPool (slabs p) (n_slabs p) (cap_slabs p) (n_items p) NULL)
       (refused (Z.max 8 (n_items p)) isz s).
Proof.
  intros Hf Hroom. unfold grow. rewrite Hf, Z.eqb_refl.
  cbv zeta. rewrite growth_size.
  now rewrite (bind_ok _ _ _ _ _ (get_slab_refused _ _ Hroom)).
Qed.

Lemma pop_null p s :
  first_free p = NULL ->
  pop NDEBUG p s = if NDEBUG then Fault s else Abort s.
Proof.
  intros Hf. unfold pop, assert, bind, load. rewrite Hf.
  destruct NDEBUG; reflexivity.
Qed.

(** When the free list is empty and the arena is exhausted, alloc_item does
    not return: the assert fails, or under NDEBUG the null pointer is
    dereferenced. *)
Lemma alloc_item_refused p s :
  first_free p = NULL ->
  limit s < brk s + Z.max 8 (n_items p) * isz ->
  alloc_item isz NDEBUG p s =
    if NDEBUG then Fault (refused (Z.max 8 (n_items p)) isz s)
    else Abort (refused (Z.max 8 (n_items p)) isz s).
Proof.
  intros Hf Hroom. unfold alloc_item.
  rewrite (bind_ok _ _ _ _ _ (grow_refused _ _ Hf Hroom)).
  apply pop_null. reflexivity.
Qed.

Lemma inv_free_list_empty p s F L :
  Inv isz p s F L -> first_free p = NULL -> F = [].
Proof.
  intros HI Hf. destruct F as [|x F]; [reflexivity|exfalso].
  destruct (inv_chain _ _ _ _ _ HI) as [Hh _].
  destruct (inv_items _ _ _ _ _ HI x) as [Hn _]; [now left|].
  congruence.
Qed.

Lemma inv_free_list_nonempty p s F L :
  Inv isz p s F L -> first_free p <> NULL ->
  exists F', F = first_free p :: F'.
Proof.
  intros HI Hf. destruct F as [|x F].
  - exfalso. apply Hf. exact (inv_chain _ _ _ _ _ HI).
  - destruct (inv_chain _ _ _ _ _ HI) as [Hh _]. exists F. now rewrite Hh.
Qed.

(** alloc_item with a non-empty free list. *)
Lemma alloc_item_pop p s x F L :
  Inv isz p s (x :: F) L ->
  exists nx,
    alloc_item isz NDEBUG p s =
      Ok (x, mkPool (slabs p) (n_slabs p) (cap_slabs p)
                    (wrap (n_items p + 1)) nx) s /\
    Inv isz (mkPool (slabs p) (n_slabs p) (cap_slabs p)
                    (wrap (n_items p + 1)) nx) s F (x :: L).
Proof.
  intros HI. destruct (inv_pop _ _ _ _ _ HI) as [nx [Hp HI']].
  exists nx. split; auto. unfold alloc_item.
  assert (Hf : first_free p <> NULL).
  { destruct (inv_chain _ _ _ _ _ HI) as [-> _].
    destruct (inv_items _ _ _ _ _ HI x) as [Hn _]; [now left|auto]. }
  now rewrite (bind_ok _ _ _ _ _ (grow_nonempty p s Hf)).
Qed.

(** alloc_item with an empty free list and room in the arena: the result is
    the first item of the new slab, and the other items are the free list. *)
Lemma alloc_item_grow p s L :
  Inv isz p s [] L ->
  brk s + Z.max 8 (n_items p) * isz <= limit s ->
  exists c nx,
    alloc_item isz NDEBUG p s =
      Ok (brk s, mkPool (slabs p) (n_slabs p) (cap_slabs p)
                        (wrap (n_items p + 1)) nx)
         (set_cells c (served (Z.max 8 (n_items p)) isz s)) /\
    Inv isz (mkPool (slabs p) (n_slabs p) (cap_slabs p)
                    (wrap (n_items p + 1)) nx)
        (set_cells c (served (Z.max 8 (n_items p)) isz s))
        (slab_items isz (brk s) 1 (Z.to_nat (Z.max 8 (n_items p) - 1)))
        (brk s :: L) /\
    (forall y, y <= brk s - ptr_size -> get c y = get (cells s) y).
Proof.
  intros HI Hroom.
  pose proof (inv_chain _ _ _ _ _ HI) as Hf. simpl in Hf.
  pose proof (inv_count _ _ _ _ _ HI) as Hn.
  destruct (inv_wf _ _ _ _ _ HI) as [Hb _].
  destruct (grow_served p s Hf Hb Hn Hroom) as [c [Hg [Hlink [Hlast Hout]]]].
  assert (HI1 := inv_slab p s L (Z.max 8 (n_items p)) c (brk s) HI
                          (growth_range _ Hn) eq_refl Hlink Hlast).
  replace (Z.to_nat (Z.max 8 (n_items p)))
    with (S (Z.to_nat (Z.max 8 (n_items p) - 1))) in HI1 by lia.
  change (slab_items isz (brk s) 0 (S (Z.to_nat (Z.max 8 (n_items p) - 1))))
    with (item isz (brk s) 0 ::
          slab_items isz (brk s) (0 + 1) (Z.to_nat (Z.max 8 (n_items p) - 1)))
    in HI1.
  replace (item isz (brk s) 0) with (brk s) in HI1 by (unfold item; ring).
  destruct (inv_pop _ _ _ _ _ HI1) as [nx [Hp HI2]].
  exists c, nx. split; [|split; [exact HI2|]].
  - unfold alloc_item. rewrite (bind_ok _ _ _ _ _ Hg). exact Hp.
  - intros y Hy. apply Hout. now left.
Qed.

(** Every successful alloc_item keeps the invariant and adds its result to
    the held items. *)
Lemma alloc_item_inv p s F L x p' s' :
  Inv isz p s F L -> alloc_item isz NDEBUG p s = Ok (x, p') s' ->
  exists F', Inv isz p' s' F' (x :: L).
Proof.
  intros HI Hrun.
  destruct (Z.eq_dec (first_free p) NULL) as [Hf|Hf].
  - pose proof (inv_free_list_empty _ _ _ _ HI Hf) as ->.
    destruct (Z.le_gt_cases (brk s + Z.max 8 (n_items p) * isz) (limit s))
      as [Hroom|Hroom].
    + destruct (alloc_item_grow p s L HI Hroom) as [c [nx [Hg [HI' _]]]].
      rewrite Hg in Hrun. inversion Hrun; subst. eauto.
    + rewrite alloc_item_refused in Hrun by (auto; lia).
      destruct NDEBUG; discriminate.
  - destruct (inv_free_list_nonempty _ _ _ _ HI Hf) as [F' ->].
    destruct (alloc_item_pop _ _ _ _ _ HI) as [nx [Hg HI']].
    rewrite Hg in Hrun. inversion Hrun; subst. eauto.
Qed.

(** ** Construction *)

Lemma inv_empty a b c s :
  state_wf s -> Inv isz (mkPool a b c 0 NULL) s [] [].
Proof.
  intros Hwf. constructor; simpl; auto; try constructor;
    try (unfold SIZE_MAX; lia); try tauto.
Qed.

Lemma store_null v s : store NULL v s = Fault s.
Proof. reflexivity. Qed.

(** The index write of init_with_cap, after the index array was served. *)
Lemma index_store_ok sl s :
  0 < brk s ->
  store (brk s + 0 * ptr_size) sl (served 1 ptr_size s) =
    Ok tt (set_cells (write_cell (brk s) sl (cells s)) (served 1 ptr_size s)).
Proof.
  intros Hb. replace (brk s + 0 * ptr_size) with (brk s) by ring.
  rewrite store_ok; [reflexivity|]. apply valid_access_spec. split; [unfold NULL; lia|].
  exists (brk s, 1 * ptr_size). unfold ptr_size. simpl. split; [now left|lia].
Qed.

(** init_with_cap when the arena has room for the slab and for the index
    array: one slab of [cap] items, all of them in the free list, recorded
    in the index array. *)
Lemma init_with_cap_served cap s :
  state_wf s -> 1 <= cap <= SIZE_MAX ->
  brk s + cap * isz + ptr_size <= limit s ->
  exists s',
    init_with_cap isz cap s =
      Ok (mkPool (brk s + cap * isz) 1 1 0 (brk s)) s' /\
    Inv isz (mkPool (brk s + cap * isz) 1 1 0 (brk s)) s'
        (slab_items isz (brk s) 0 (Z.to_nat cap)) [] /\
    get (cells s') (brk s + cap * isz) = Some (brk s) /\
    blocks s' = (brk s + cap * isz, 1 * ptr_size) ::
                (brk s, cap * isz) :: blocks s /\
    err s' = err s /\
    alloc_log s' = EvAlloc 1 ptr_size (brk s + cap * isz) ::
                   EvAlloc cap isz (brk s) :: alloc_log s.
Proof.
  intros Hwf Hcap Hroom. pose proof Hwf as [Hb _].
  assert (Hpos : 0 <= cap * isz) by (unfold ptr_size in *; nia).
  destruct (get_slab_served cap s) as [c [Hrun [Hlink [Hlast _]]]];
    auto; [unfold ptr_size in *; lia|].
  assert (HI1 := inv_slab (mkPool 0 0 0 0 NULL) s [] cap c (brk s)
                          (inv_empty 0 0 0 s Hwf) Hcap eq_refl Hlink Hlast).
  simpl in HI1. set (s1 := set_cells c (served cap isz s)) in *.
  assert (Hidx : mem_Alloc 1 ptr_size s1 = Ok (brk s1) (served 1 ptr_size s1)).
  { apply mem_Alloc_served. unfold ptr_size in *. simpl. lia. }
  assert (HI2 := inv_served _ _ _ _ 1 ptr_size ltac:(unfold ptr_size; lia) HI1).
  assert (Hb1 : 0 < brk s1) by (simpl; lia).
  pose proof (index_store_ok (brk s) s1 Hb1) as Hst.
  exists (set_cells (write_cell (brk s1) (brk s) (cells s1))
                    (served 1 ptr_size s1)).
  split; [|split; [|repeat split]].
  - unfold init_with_cap.
    rewrite (bind_ok _ _ _ _ _ Hrun). fold s1.
    rewrite (bind_ok _ _ _ _ _ Hidx).
    rewrite (bind_ok _ _ _ _ _ Hst). reflexivity.
  - eapply inv_pool; [| |eapply (inv_store _ _ _ _ (brk s1) (brk s) HI2)];
      try reflexivity.
    + apply valid_access_spec. split; [unfold NULL; lia|].
      exists (brk s1, 1 * ptr_size). unfold ptr_size. simpl.
      split; [now left|lia].
    + intros x Hx. left.
      assert (item_ok isz s1 x).
      { apply (inv_items _ _ _ _ _ HI1). apply in_or_app. auto. }
      pose proof (item_ok_below s1 x (inv_wf _ _ _ _ _ HI1) H).
      unfold ptr_size in *. lia.
  - simpl. apply write_cell_same.
Qed.

(** init_with_cap when the arena cannot hold the slab but can hold the
    index array: the failure is reported through [err], and the pool has an
    index array whose only entry is the null pointer. *)
Lemma init_with_cap_slab_refused cap s :
  state_wf s -> limit s < brk s + cap * isz -> brk s + ptr_size <= limit s ->
  exists s',
    init_with_cap isz cap s = Ok (mkPool (brk s) 1 1 0 NULL) s' /\
    Inv isz (mkPool (brk s) 1 1 0 NULL) s' [] [] /\
    get (cells s') (brk s) = Some NULL /\
    blocks s' = (brk s, 1 * ptr_size) :: blocks s /\
    err s' = csnip_err_NOMEM.
Proof.
  intros Hwf Hno Hroom. pose proof Hwf as [Hb _].
  set (s1 := refused cap isz s).
  assert (Hidx : mem_Alloc 1 ptr_size s1 = Ok (brk s1) (served 1 ptr_size s1)).
  { apply mem_Alloc_served. unfold ptr_size in *. simpl. lia. }
  pose proof (index_store_ok NULL s1 Hb) as Hst.
  exists (set_cells (write_cell (brk s1) NULL (cells s1))
                    (served 1 ptr_size s1)).
  split; [|split; [|repeat split]].
  - unfold init_with_cap.
    rewrite (bind_ok _ _ _ _ _ (get_slab_refused _ _ Hno)). fold s1.
    rewrite (bind_ok _ _ _ _ _ Hidx).
    rewrite (bind_ok _ _ _ _ _ Hst). reflexivity.
  - apply inv_empty. apply state_wf_set_cells.
    apply state_wf_served; [unfold ptr_size; lia|]. exact Hwf.
  - simpl. apply write_cell_same.
Qed.

(** init_with_cap when the index array cannot be allocated: the null
    pointer is indexed, whether or not the slab was allocated. *)
Lemma init_with_cap_index_refused cap s sl s1 :
  get_slab isz cap s = Ok sl s1 -> limit s1 < brk s1 + ptr_size ->
  init_with_cap isz cap s = Fault (refused 1 ptr_size s1).
Proof.
  intros Hrun Hno. unfold init_with_cap.
  rewrite (bind_ok _ _ _ _ _ Hrun).
  rewrite (bind_ok _ _ _ _ _ (mem_Alloc_refused 1 ptr_size s1 ltac:(lia))).
  reflexivity.
Qed.

Lemma init_with_cap_inv cap s p s' :
  state_wf s -> 0 < cap <= SIZE_MAX ->
  init_with_cap isz cap s = Ok p s' -> exists F, Inv isz p s' F [].
Proof.
  intros Hwf Hcap Hrun. pose proof Hwf as [Hb _].
  assert (Hcap' : 1 <= cap <= SIZE_MAX) by lia.
  destruct (Z.le_gt_cases (brk s + cap * isz) (limit s)) as [Hr1|Hr1].
  - destruct (Z.le_gt_cases (brk s + cap * isz + ptr_size) (limit s))
      as [Hr2|Hr2].
    + destruct (init_with_cap_served cap s Hwf Hcap' Hr2) as [s2 [E [HI _]]].
      rewrite E in Hrun. inversion Hrun; subst. eauto.
    + destruct (get_slab_served cap s Hb Hcap' Hr1) as [c [Hg _]].
      rewrite (init_with_cap_index_refused _ _ _ _ Hg) in Hrun;
        [discriminate|simpl; lia].
  - destruct (Z.le_gt_cases (brk s + ptr_size) (limit s)) as [Hr2|Hr2].
    + destruct (init_with_cap_slab_refused cap s Hwf Hr1 Hr2)
        as [s2 [E [HI _]]].
      rewrite E in Hrun. inversion Hrun; subst. eauto.
    + rewrite (init_with_cap_index_refused _ _ _ _
                 (get_slab_refused cap s Hr1)) in Hrun;
        [discriminate|simpl; lia].
Qed.

(** ** Every reachable pool satisfies the invariant *)

Theorem reachable_inv p s L :
  reachable isz NDEBUG p s L -> exists F, Inv isz p s F L.
Proof.
  induction 1 as [s p s' Hwf Hrun|cap s p s' Hwf Hcap Hrun
                 |p s L x p' s' _ [F HI] Hrun
                 |p s L e p' s' _ [F HI] He Hrun
                 |p s L e a v s' _ [F HI] He Hlo Hhi Hrun
                 |p s L count size r s' _ [F HI] Hpos Hrun].
  - inversion Hrun; subst. exists []. apply inv_empty. assumption.
  - eapply init_with_cap_inv; eauto.
  - eapply alloc_item_inv; eauto.
  - destruct (inv_free p s F L e HI He) as [E HI'].
    rewrite E in Hrun. inversion Hrun; subst. eauto.
  - exists F. unfold store in Hrun.
    destruct (valid_access a s) eqn:Hv; [|discriminate].
    inversion Hrun; subst. apply inv_store; auto.
    intros x Hx.
    assert (apart isz x e).
    { apply (inv_apart _ _ _ _ _ HI); try (apply in_or_app; auto).
      intros ->. apply (inv_disjoint _ _ _ _ _ HI e); auto. }
    unfold apart, ptr_size in *. lia.
  - exists F. unfold mem_Alloc in Hrun.
    destruct (brk s + count * size <=? limit s); inversion Hrun; subst.
    + apply (inv_served _ _ _ _ count size Hpos HI).
    + apply (inv_refused _ _ _ _ count size HI).
Qed.

(** ** The slab array *)

Lemma index_ok_step p s FL p' s' FL' :
  index_ok isz p s FL ->
  slabs p' = slabs p -> n_slabs p' = n_slabs p ->
  incl (blocks s) (blocks s') ->
  (In (slabs p, 1 * ptr_size) (blocks s) ->
   (forall a, In a FL -> a + isz <= slabs p \/ slabs p + ptr_size <= a) ->
   get (cells s') (slabs p) = get (cells s) (slabs p)) ->
  (forall a, In a FL' -> ~ In a FL ->
             In (slabs p, 1 * ptr_size) (blocks s) ->
             a + isz <= slabs p \/ slabs p + ptr_size <= a) ->
  index_ok isz p' s' FL'.
Proof.
  intros [[H1 H2]|[H1 [H2 [H3 [H4 [sl [H5 H6]]]]]]] Es En Hb Hc Hnew.
  - left. split; congruence.
  - right. rewrite Es, En. split; [exact H1|]. split; [exact H2|].
    split; [apply Hb, H3|]. split.
    + intros a Ha. destruct (in_dec Z.eq_dec a FL) as [Hin|Hnin].
      * apply H4. exact Hin.
      * apply Hnew; assumption.
    + exists sl. split; [rewrite Hc by assumption; exact H5|].
      destruct H6 as [->|[Hne [sz Hsz]]]; [now left|right].
      split; [exact Hne|]. exists sz. apply Hb, Hsz.
Qed.

Lemma alloc_item_index p s F L x p' s' :
  Inv isz p s F L -> index_ok isz p s (F ++ L) ->
  alloc_item isz NDEBUG p s = Ok (x, p') s' ->
  exists F', Inv isz p' s' F' (x :: L) /\ index_ok isz p' s' (F' ++ x :: L).
Proof.
  intros HI HX Hrun.
  destruct (Z.eq_dec (first_free p) NULL) as [Hf|Hf].
  - pose proof (inv_free_list_empty _ _ _ _ HI Hf) as ->.
    destruct (Z.le_gt_cases (brk s + Z.max 8 (n_items p) * isz) (limit s))
      as [Hroom|Hroom].
    + destruct (alloc_item_grow p s L HI Hroom) as [c [nx [Hg [HI' Hout]]]].
      rewrite Hg in Hrun. inversion Hrun; subst. eexists. split; [exact HI'|].
      assert (Hbelow : In (slabs p, 1 * ptr_size) (blocks s) ->
                       slabs p + ptr_size <= brk s).
      { intros Hin. destruct (inv_wf _ _ _ _ _ HI) as [_ Hbl].
        rewrite Forall_forall in Hbl. specialize (Hbl _ Hin).
        unfold block_ok, ptr_size in *. simpl in Hbl. lia. }
      eapply index_ok_step; [exact HX|reflexivity|reflexivity| | |].
      * simpl. apply incl_tl, incl_refl.
      * intros Hin _. simpl. apply Hout. specialize (Hbelow Hin).
        unfold ptr_size in *. lia.
      * intros a Ha Hna Hin. right. specialize (Hbelow Hin).
        apply in_app_or in Ha. destruct Ha as [Ha|[<-|Ha]].
        -- apply in_slab_items in Ha. destruct Ha as [j [Hj ->]].
           unfold item, ptr_size in *. nia.
        -- lia.
        -- tauto.
    + rewrite alloc_item_refused in Hrun by (auto; lia).
      destruct NDEBUG; discriminate.
  - destruct (inv_free_list_nonempty _ _ _ _ HI Hf) as [F' ->].
    destruct (alloc_item_pop _ _ _ _ _ HI) as [nx [Hg HI']].
    rewrite Hg in Hrun. inversion Hrun; subst. exists F'. split; [exact HI'|].
    eapply index_ok_step; [exact HX|reflexivity|reflexivity| | |].
    + apply incl_refl.
    + reflexivity.
    + intros a Ha Hna _. exfalso. apply Hna.
      apply in_app_or in Ha. simpl.
      destruct Ha as [Ha|[Ha|Ha]]; auto; right; apply in_or_app; auto.
Qed.

Lemma store_index p s FL a v :
  index_ok isz p s FL ->
  (exists e, In e FL /\ e <= a /\ a + ptr_size <= e + isz) ->
  forall p' FL',
    slabs p' = slabs p -> n_slabs p' = n_slabs p -> incl FL' FL ->
    index_ok isz p' (set_cells (write_cell a v (cells s)) s) FL'.
Proof.
  intros HX [e [He [Hlo Hhi]]] p' FL' Es En Hincl.
  eapply index_ok_step; [exact HX|exact Es|exact En| | |].
  - apply incl_refl.
  - intros _ Hap. simpl. apply write_cell_other.
    specialize (Hap e He). unfold ptr_size in *. lia.
  - intros i Hi Hni. exfalso. apply Hni, Hincl, Hi.
Qed.

Lemma init_with_cap_index cap s p s' :
  state_wf s -> 0 < cap <= SIZE_MAX ->
  init_with_cap isz cap s = Ok p s' ->
  exists F, Inv isz p s' F [] /\ index_ok isz p s' (F ++ []).
Proof.
  intros Hwf Hcap Hrun. pose proof Hwf as [Hb _].
  assert (Hcap' : 1 <= cap <= SIZE_MAX) by lia.
  assert (Hpos : 0 < cap * isz) by (unfold ptr_size in *; nia).
  destruct (Z.le_gt_cases (brk s + cap * isz) (limit s)) as [Hr1|Hr1].
  - destruct (Z.le_gt_cases (brk s + cap * isz + ptr_size) (limit s))
      as [Hr2|Hr2].
    + destruct (init_with_cap_served cap s Hwf Hcap' Hr2)
        as [s2 [E [HI [Hc [Hbl _]]]]].
      rewrite E in Hrun. inversion Hrun; subst. eexists. split; [exact HI|].
      right. simpl. split; [reflexivity|]. split; [unfold NULL; lia|].
      split; [rewrite Hbl; now left|]. split.
      * intros a Ha. rewrite app_nil_r in Ha. left.
        apply in_slab_items in Ha. destruct Ha as [j [Hj ->]].
        rewrite Z2Nat.id in Hj by lia. unfold item, ptr_size in *. nia.
      * exists (brk s). split; [exact Hc|]. right. split; [lia|].
        exists (cap * isz). rewrite Hbl. right. now left.
    + destruct (get_slab_served cap s Hb Hcap' Hr1) as [c [Hg _]].
      rewrite (init_with_cap_index_refused _ _ _ _ Hg) in Hrun;
        [discriminate|simpl; lia].
  - destruct (Z.le_gt_cases (brk s + ptr_size) (limit s)) as [Hr2|Hr2].
    + destruct (init_with_cap_slab_refused cap s Hwf Hr1 Hr2)
        as [s2 [E [HI [Hc [Hbl _]]]]].
      rewrite E in Hrun. inversion Hrun; subst. exists []. split; [exact HI|].
      right. simpl. split; [reflexivity|]. split; [unfold NULL; lia|].
      split; [rewrite Hbl; now left|]. split; [tauto|].
      exists NULL. split; [exact Hc|now left].
    + rewrite (init_with_cap_index_refused _ _ _ _
                 (get_slab_refused cap s Hr1)) in Hrun;
        [discriminate|simpl; lia].
Qed.

(** Every reachable pool has a sound slab array. *)
Theorem reachable_index p s L :
  reachable isz NDEBUG p s L ->
  exists F, Inv isz p s F L /\ index_ok isz p s (F ++ L).
Proof.
  induction 1 as [s p s' Hwf Hrun|cap s p s' Hwf Hcap Hrun
                 |p s L x p' s' _ [F [HI HX]] Hrun
                 |p s L e p' s' _ [F [HI HX]] He Hrun
                 |p s L e a v s' _ [F [HI HX]] He Hlo Hhi Hrun
                 |p s L count size r s' _ [F [HI HX]] Hpos Hrun].
  - inversion Hrun; subst. exists []. split; [now apply inv_empty|].
    left. auto.
  - eapply init_with_cap_index; eauto.
  - eapply alloc_item_index; eauto.
  - destruct (inv_free p s F L e HI He) as [E HI'].
    rewrite E in Hrun. inversion Hrun; subst. eexists. split; [exact HI'|].
    eapply store_index; [exact HX| |reflexivity|reflexivity|].
    + exists e. split; [apply in_or_app; auto|]. unfold ptr_size in *. lia.
    + intros i [<-|Hi]; [apply in_or_app; auto|].
      apply in_app_or in Hi. apply in_or_app.
      destruct Hi as [Hi|Hi]; auto. apply in_remove in Hi. tauto.
  - exists F. unfold store in Hrun.
    destruct (valid_access a s) eqn:Hv; [|discriminate].
    inversion Hrun; subst. split.
    + apply inv_store; auto. intros x Hx.
      assert (apart isz x e).
      { apply (inv_apart _ _ _ _ _ HI); try (apply in_or_app; auto).
        intros ->. apply (inv_disjoint _ _ _ _ _ HI e); auto. }
      unfold apart, ptr_size in *. lia.
    + eapply store_index; [exact HX| |reflexivity|reflexivity|].
      * exists e. split; [apply in_or_app; auto|]. lia.
      * apply incl_refl.
  - exists F. unfold mem_Alloc in Hrun.
    destruct (brk s + count * size <=? limit s); inversion Hrun; subst.
    + split; [apply (inv_served _ _ _ _ count size Hpos HI)|].
      eapply index_ok_step; [exact HX|reflexivity|reflexivity| | |].
      * simpl. apply incl_tl, incl_refl.
      * reflexivity.
      * tauto.
    + split; [apply (inv_refused _ _ _ _ count size HI)|].
      eapply index_ok_step; [exact HX|reflexivity|reflexivity| | |].
      * apply incl_refl.
      * reflexivity.
      * tauto.
Qed.

(** deinit returns on every pool with a sound slab array. *)
Lemma deinit_index p s FL :
  index_ok isz p s FL ->
  exists s', deinit p s = Ok (mkPool NULL 0 0 0 NULL) s'.
Proof.
  intros [[H1 H2]|[H1 [H2 [H3 [_ [sl [H5 H6]]]]]]]; unfold deinit.
  - rewrite H1, H2. eexists. reflexivity.
  - rewrite H1. change (Z.to_nat 1) with 1%nat. cbn [for_loop].
    replace (slabs p + 0 * ptr_size) with (slabs p) by ring.
    assert (Hv : valid_access (slabs p) s = true).
    { apply valid_access_spec. split; [exact H2|].
      exists (slabs p, 1 * ptr_size). simpl. split; [exact H3|].
      unfold ptr_size. lia. }
    assert (Hfree : exists s1,
               mem_Free sl s = Ok tt s1 /\
               In (slabs p, 1 * ptr_size) (blocks s1)).
    { unfold mem_Free. destruct H6 as [->|[Hne [sz Hsz]]].
      - rewrite Z.eqb_refl. eexists. split; [reflexivity|exact H3].
      - destruct (Z.eqb_spec sl NULL); [eexists; split; [reflexivity|exact H3]|].
        assert (E : existsb (fun b => fst b =? sl) (blocks s) = true).
        { apply existsb_exists. exists (sl, sz). split; [exact Hsz|].
          apply Z.eqb_refl. }
        rewrite E. eexists. split; [reflexivity|]. simpl.
        apply filter_In. split; [exact H3|]. simpl.
        apply negb_true_iff, Z.eqb_neq. congruence. }
    destruct Hfree as [s1 [Hf1 Hin1]].
    unfold bind at 1 2 3. rewrite (load_ok _ _ _ Hv H5), Hf1.
    unfold ret at 1. unfold bind, mem_Free.
    apply Z.eqb_neq in H2. rewrite H2.
    assert (E : existsb (fun b => fst b =? slabs p) (blocks s1) = true).
    { apply existsb_exists. exists (slabs p, 1 * ptr_size).
      split; [exact Hin1|]. apply Z.eqb_refl. }
    rewrite E. eexists. reflexivity.
Qed.

(** ** Runs of acquisitions and releases *)

Lemma alloc_items_reachable n : forall p s L xs p1 s1,
  reachable isz NDEBUG p s L ->
  alloc_items isz NDEBUG n p s = Ok (xs, p1) s1 ->
  reachable isz NDEBUG p1 s1 (rev xs ++ L) /\ length xs = n.
Proof.
  induction n as [|n IH]; intros p s L xs p1 s1 HR Hrun; simpl in Hrun.
  - inversion Hrun; subst. auto.
  - apply bind_inv in Hrun. destruct Hrun as [[x p'] [s' [Ha Hrun]]].
    apply bind_inv in Hrun. destruct Hrun as [[xs' p2] [s2 [Hb Hrun]]].
    inversion Hrun; subst. simpl in *.
    destruct (IH p' s' (x :: L) xs' p1 s1) as [HR' Hlen]; auto.
    { eapply reach_alloc; eauto. }
    rewrite <- app_assoc. simpl. auto.
Qed.

(** Acquisitions served from the free list return its items in order and
    leave memory alone. *)
Lemma alloc_items_pop G : forall p s F L,
  Inv isz p s (G ++ F) L ->
  exists p',
    alloc_items isz NDEBUG (length G) p s = Ok (G, p') s /\
    Inv isz p' s F (rev G ++ L) /\
    (n_items p + Z.of_nat (length G) <= SIZE_MAX ->
     n_items p' = n_items p + Z.of_nat (length G)).
Proof.
  induction G as [|x G IH]; intros p s F L HI.
  - exists p. simpl. split; [reflexivity|]. split; [exact HI|lia].
  - destruct (alloc_item_pop p s x (G ++ F) L HI) as [nx [Ha HI1]].
    destruct (IH _ _ _ _ HI1) as [p' [Hb [HI2 Hn]]].
    exists p'. split; [|split].
    + simpl alloc_items. rewrite (bind_ok _ _ _ _ _ Ha). simpl snd.
      rewrite (bind_ok _ _ _ _ _ Hb). reflexivity.
    + simpl rev. rewrite <- app_assoc. exact HI2.
    + intros Hle. pose proof (inv_count _ _ _ _ _ HI) as Hc.
      simpl length in Hle. rewrite Nat2Z.inj_succ in Hle.
      simpl n_items in Hn. rewrite wrap_small in Hn by lia.
      simpl length. rewrite Nat2Z.inj_succ. lia.
Qed.

(** The held items that remain after the release of [ys]. *)
Lemma free_items_inv ys : forall p s F L,
  Inv isz p s F L -> NoDup ys -> incl ys L ->
  exists p' s' L',
    free_items ys p s = Ok p' s' /\
    Inv isz p' s' (rev ys ++ F) L' /\
    n_items p' = n_items p /\
    blocks s' = blocks s /\ brk s' = brk s /\ alloc_log s' = alloc_log s.
Proof.
  induction ys as [|e ys IH]; intros p s F L HI Hnd Hin.
  - exists p, s, L. simpl. split; [reflexivity|]. split; [exact HI|].
    repeat split.
  - inversion Hnd; subst.
    destruct (inv_free p s F L e HI) as [Hf HI1]; [apply Hin; now left|].
    destruct (IH _ _ _ _ HI1 H2) as [p' [s' [L' [Hrun [HI2 [Hn [Hb [Hk Hl]]]]]]]].
    { intros a Ha. apply in_in_remove; [congruence|].
      apply Hin. now right. }
    exists p', s', L'. split; [|split; [|repeat split; auto]].
    + simpl free_items. rewrite (bind_ok _ _ _ _ _ Hf). exact Hrun.
    + simpl rev. rewrite <- app_assoc. exact HI2.
Qed.

(** ** What a successful alloc_item must have done *)

Lemma pop_ok p s nx :
  valid_access (first_free p) s = true ->
  get (cells s) (first_free p) = Some nx ->
  pop NDEBUG p s =
    Ok (first_free p,
        mkPool (slabs p) (n_slabs p) (cap_slabs p) (wrap (n_items p + 1)) nx)
       s.
Proof.
  intros Hv Hc. unfold pop, assert, bind.
  pose proof Hv as Hv'. apply valid_access_spec in Hv'.
  destruct Hv' as [Hn _]. apply Z.eqb_neq in Hn. rewrite Hn.
  rewrite orb_true_r. now rewrite (load_ok _ _ _ Hv Hc).
Qed.

Lemma pop_inv p s x p' s' :
  pop NDEBUG p s = Ok (x, p') s' ->
  s' = s /\ x = first_free p /\ valid_access x s = true /\
  exists nx,
    get (cells s) x = Some nx /\
    p' = mkPool (slabs p) (n_slabs p) (cap_slabs p) (wrap (n_items p + 1)) nx.
Proof.
  unfold pop. intros Hp.
  apply bind_inv in Hp. destruct Hp as [[] [s2 [Has Hp]]].
  apply bind_inv in Hp. destruct Hp as [nx [s3 [Hl Hp]]].
  apply load_inv in Hl. destruct Hl as [-> [Hv Hc]].
  unfold assert in Has. destruct (NDEBUG || _); [|discriminate].
  inversion Has; subst s2. inversion Hp; subst. eauto 6.
Qed.

Lemma grow_inv p s q s' :
  grow isz p s = Ok q s' ->
  slabs q = slabs p /\ n_slabs q = n_slabs p /\ cap_slabs q = cap_slabs p /\
  n_items q = n_items p.
Proof.
  unfold grow. destruct (first_free p =? NULL).
  - intros H. apply bind_inv in H. destruct H as [sl [s1 [_ H]]].
    inversion H; subst. simpl. auto.
  - intros H. inversion H; subst. auto.
Qed.

Lemma alloc_item_shape p s x p' s' :
  alloc_item isz NDEBUG p s = Ok (x, p') s' ->
  valid_access x s' = true /\
  slabs p' = slabs p /\ n_slabs p' = n_slabs p /\
  cap_slabs p' = cap_slabs p /\ n_items p' = wrap (n_items p + 1).
Proof.
  unfold alloc_item. intros H.
  apply bind_inv in H. destruct H as [q [s1 [Hg Hp]]].
  apply pop_inv in Hp. destruct Hp as [-> [-> [Hv [nx [_ ->]]]]].
  apply grow_inv in Hg. destruct Hg as [-> [-> [-> ->]]]. simpl. auto.
Qed.

Lemma free_item_shape p e s p' s' :
  free_item p e s = Ok p' s' ->
  p' = mkPool (slabs p) (n_slabs p) (cap_slabs p) (n_items p) e.
Proof.
  unfold free_item. intros H.
  apply bind_inv in H. destruct H as [[] [s1 [_ H]]]. now inversion H.
Qed.

(** ** What alloc_item asks of the allocator *)

Lemma log_bind_stable {A B} (m : M A) (k : A -> M B) s :
  (forall a, log_stable (k a)) ->
  alloc_log (final_state (bind m k s)) = alloc_log (final_state (m s)).
Proof.
  intros Hk. unfold bind. destruct (m s) as [a s1| |]; simpl; auto.
  apply Hk.
Qed.

Lemma mem_Alloc_log count size s :
  exists r s',
    mem_Alloc count size s = Ok r s' /\
    alloc_log s' = EvAlloc count size r :: alloc_log s.
Proof.
  unfold mem_Alloc. cbv zeta.
  destruct (brk s + count * size <=? limit s); eexists _, _; split;
    reflexivity.
Qed.

Lemma get_slab_log g s :
  exists r,
    alloc_log (final_state (get_slab isz g s)) =
    EvAlloc g isz r :: alloc_log s.
Proof.
  destruct (mem_Alloc_log g isz s) as [r [s' [E Hl]]].
  exists r. unfold get_slab. rewrite (bind_ok _ _ _ _ _ E), <- Hl.
  destruct (r =? NULL); [reflexivity|].
  apply log_stable_bind.
  - apply log_stable_for_loop. intros i. apply log_stable_store.
  - intros _. apply log_stable_bind; [apply log_stable_store|].
    intros _. apply log_stable_ret.
Qed.

Lemma alloc_item_log p s :
  first_free p = NULL ->
  exists r,
    alloc_log (final_state (alloc_item isz NDEBUG p s)) =
    EvAlloc (Z.max 8 (n_items p)) isz r :: alloc_log s.
Proof.
  intros Hf. destruct (get_slab_log (Z.max 8 (n_items p)) s) as [r Hr].
  exists r. unfold alloc_item.
  rewrite log_bind_stable by (intros a; apply log_stable_pop).
  unfold grow. rewrite Hf, Z.eqb_refl. cbv zeta. rewrite growth_size.
  rewrite log_bind_stable by (intros a; apply log_stable_ret).
  exact Hr.
Qed.

(** ** Properties of the pool *)

(** C6: in every pool built by construction, acquisitions, releases of held
    items and client writes, the held items are pairwise distinct (they
    share no byte), and an acquisition returns an item that is none of the
    held ones. *)
Theorem no_aliasing p s L :
  reachable isz NDEBUG p s L ->
  NoDup L /\
  (forall a b, In a L -> In b L -> a <> b -> apart isz a b) /\
  (forall x p' s', alloc_item isz NDEBUG p s = Ok (x, p') s' ->
                   ~ In x L /\ forall a, In a L -> apart isz x a).
Proof.
  intros HR. destruct (reachable_inv p s L HR) as [F HI].
  split; [exact (inv_nodup_live _ _ _ _ _ HI)|]. split.
  - intros a b Ha Hb. apply (inv_apart _ _ _ _ _ HI); apply in_or_app; auto.
  - intros x p' s' Hrun.
    destruct (alloc_item_inv _ _ _ _ _ _ _ HI Hrun) as [F' HI'].
    pose proof (inv_nodup_live _ _ _ _ _ HI') as Hnd.
    inversion Hnd; subst. split; [assumption|].
    intros a Ha. apply (inv_apart _ _ _ _ _ HI').
    + apply in_or_app. right. now left.
    + apply in_or_app. right. now right.
    + congruence.
Qed.

(** C5: an item that is released right after its acquisition is what the
    next acquisition returns, and the allocator is not called; in any state,
    the acquisition that follows a release returns the released item and
    leaves memory alone; and after [N]
    acquisitions from a reachable pool and the release of the [N] items in
    any order, [N] more acquisitions succeed, return these items (last
    released first) and do not call the allocator. *)
Theorem lifo_reuse :
  (forall p s x p1 s1,
     alloc_item isz NDEBUG p s = Ok (x, p1) s1 ->
     exists p2 s2 p3,
       free_item p1 x s1 = Ok p2 s2 /\
       alloc_item isz NDEBUG p2 s2 = Ok (x, p3) s2 /\
       alloc_log s2 = alloc_log s1 /\ blocks s2 = blocks s1) /\
  (forall p x s p2 s2,
     free_item p x s = Ok p2 s2 ->
     exists p3, alloc_item isz NDEBUG p2 s2 = Ok (x, p3) s2) /\
  (forall N p s L xs p1 s1 ys,
     reachable isz NDEBUG p s L ->
     alloc_items isz NDEBUG N p s = Ok (xs, p1) s1 ->
     Permutation xs ys ->
     exists p2 s2 p3,
       free_items ys p1 s1 = Ok p2 s2 /\
       alloc_items isz NDEBUG N p2 s2 = Ok (rev ys, p3) s2 /\
       alloc_log s2 = alloc_log s1 /\ blocks s2 = blocks s1).
Proof.
  split.
  - intros p s x p1 s1 Hrun.
    apply alloc_item_shape in Hrun. destruct Hrun as [Hv _].
    pose proof Hv as Hv'. apply valid_access_spec in Hv'.
    destruct Hv' as [Hn _].
    set (p2 := mkPool (slabs p1) (n_slabs p1) (cap_slabs p1) (n_items p1) x).
    set (s2 := set_cells (write_cell x (first_free p1) (cells s1)) s1).
    exists p2, s2.
    exists (mkPool (slabs p2) (n_slabs p2) (cap_slabs p2)
                   (wrap (n_items p2 + 1)) (first_free p1)).
    split; [|split; [|split; reflexivity]].
    + unfold free_item. rewrite (bind_ok _ _ _ _ _ (store_ok _ _ _ Hv)).
      reflexivity.
    + unfold alloc_item.
      rewrite (bind_ok _ _ _ _ _ (grow_nonempty p2 s2 Hn)).
      apply (pop_ok p2 s2); simpl; [exact Hv|apply write_cell_same].
  - split.
    { intros p x s p2 s2 Hfr. pose proof (free_item_shape _ _ _ _ _ Hfr) as ->.
      unfold free_item in Hfr. apply bind_inv in Hfr.
      destruct Hfr as [[] [s1 [Hst Hr]]]. inversion Hr; subst s1; clear Hr.
      unfold store in Hst. destruct (valid_access x s) eqn:Hv; [|discriminate].
      inversion Hst; subst s2; clear Hst.
      pose proof Hv as Hv'. apply valid_access_spec in Hv'.
      destruct Hv' as [Hn _].
      set (p2 := mkPool (slabs p) (n_slabs p) (cap_slabs p) (n_items p) x).
      set (s2 := set_cells (write_cell x (first_free p) (cells s)) s).
      eexists. unfold alloc_item.
      rewrite (bind_ok _ _ _ _ _ (grow_nonempty p2 s2 Hn)).
      apply (pop_ok p2 s2 (first_free p)); simpl;
        [exact Hv|apply write_cell_same]. }
    intros N p s L xs p1 s1 ys HR Hrun Hperm.
    destruct (alloc_items_reachable N p s L xs p1 s1 HR Hrun) as [HR1 Hlen].
    destruct (reachable_inv _ _ _ HR1) as [F HI].
    assert (Hnd : NoDup ys).
    { apply (Permutation_NoDup Hperm).
      pose proof (inv_nodup_live _ _ _ _ _ HI) as H.
      apply NoDup_app_remove_r in H. apply NoDup_rev in H.
      now rewrite rev_involutive in H. }
    assert (Hin : incl ys (rev xs ++ L)).
    { intros a Ha. apply in_or_app. left. apply in_rev.
      rewrite rev_involutive.
      apply (Permutation_in a (Permutation_sym Hperm) Ha). }
    destruct (free_items_inv ys p1 s1 F _ HI Hnd Hin)
      as [p2 [s2 [L' [Hf [HI2 [_ [Hb [_ Hl]]]]]]]].
    destruct (alloc_items_pop (rev ys) p2 s2 F L' HI2) as [p3 [Ha _]].
    exists p2, s2, p3. repeat split; auto.
    rewrite length_rev, <- (Permutation_length Hperm), Hlen in Ha. exact Ha.
Qed.

(** C4: an acquisition from a pool whose free list is empty asks the
    allocator for exactly max(8, n_items) items, whatever happens next;
    after init_with_cap(4) and four acquisitions the fifth asks for 8 items;
    and the first acquisition from an empty pool asks for 8 items. *)
Theorem growth_request :
  (forall p s,
     first_free p = NULL ->
     exists r,
       alloc_log (final_state (alloc_item isz NDEBUG p s)) =
       EvAlloc (Z.max 8 (n_items p)) isz r :: alloc_log s) /\
  (forall s,
     state_wf s -> brk s + 4 * isz + ptr_size <= limit s ->
     exists p0 s0 xs p4,
       init_with_cap isz 4 s = Ok p0 s0 /\
       alloc_items isz NDEBUG 4 p0 s0 = Ok (xs, p4) s0 /\
       NoDup xs /\ first_free p4 = NULL /\ n_items p4 = 4 /\
       exists r,
         alloc_log (final_state (alloc_item isz NDEBUG p4 s0)) =
         EvAlloc 8 isz r :: alloc_log s0) /\
  (forall s p0 s0,
     init_empty s = Ok p0 s0 ->
     exists r,
       alloc_log (final_state (alloc_item isz NDEBUG p0 s0)) =
       EvAlloc 8 isz r :: alloc_log s0).
Proof.
  pose proof alloc_item_log as Hgen.
  split; [exact Hgen|]. split.
  - intros s Hwf Hroom.
    destruct (init_with_cap_served 4 s Hwf ltac:(unfold SIZE_MAX; lia) Hroom)
      as [s0 [Hi [HI _]]].
    rewrite <- (app_nil_r (slab_items isz (brk s) 0 (Z.to_nat 4))) in HI.
    destruct (alloc_items_pop _ _ _ _ _ HI) as [p4 [Ha [HI4 Hn]]].
    eexists _, s0, _, p4. split; [exact Hi|]. split; [exact Ha|].
    split; [apply NoDup_slab_items|].
    pose proof (inv_chain _ _ _ _ _ HI4) as Hf. simpl in Hf.
    split; [exact Hf|]. split.
    + simpl in Hn. apply Hn. unfold SIZE_MAX. lia.
    + destruct (Hgen p4 s0 Hf) as [r Hr]. exists r. rewrite Hr.
      simpl in Hn. rewrite Hn by (unfold SIZE_MAX; lia). reflexivity.
  - intros s p0 s0 Hi. inversion Hi; subst.
    destruct (Hgen (mkPool NULL 0 0 0 NULL) s0 eq_refl) as [r Hr].
    exists r. exact Hr.
Qed.

Lemma acquisitions_nonneg ops : 0 <= acquisitions ops.
Proof. induction ops as [|[|e] r IH]; cbn [acquisitions]; lia. Qed.

(** C7, as amended: a successful alloc_item adds one to n_items in size_t
    arithmetic, which is exactly one more unless the counter was SIZE_MAX;
    free_item leaves n_items alone; and over a run of acquisitions and
    releases that does not take the counter past SIZE_MAX, n_items grows by
    the number of acquisitions, so it never decreases. *)
Theorem counter_steps :
  (forall p s x p' s',
     alloc_item isz NDEBUG p s = Ok (x, p') s' ->
     n_items p' = wrap (n_items p + 1) /\
     (0 <= n_items p < SIZE_MAX -> n_items p' = n_items p + 1)) /\
  (forall p e s p' s',
     free_item p e s = Ok p' s' -> n_items p' = n_items p) /\
  (forall ops p s p' s',
     run_ops isz NDEBUG ops p s = Ok p' s' ->
     0 <= n_items p -> n_items p + acquisitions ops <= SIZE_MAX ->
     n_items p' = n_items p + acquisitions ops /\ n_items p <= n_items p').
Proof.
  assert (Ha : forall p s x p' s',
     alloc_item isz NDEBUG p s = Ok (x, p') s' ->
     n_items p' = wrap (n_items p + 1) /\
     (0 <= n_items p < SIZE_MAX -> n_items p' = n_items p + 1)).
  { intros p s x p' s' H. apply alloc_item_shape in H.
    destruct H as [_ [_ [_ [_ ->]]]]. split; [reflexivity|].
    intros Hn. apply wrap_small. lia. }
  assert (Hf : forall p e s p' s',
     free_item p e s = Ok p' s' -> n_items p' = n_items p).
  { intros p e s p' s' H. apply free_item_shape in H. now subst. }
  split; [exact Ha|]. split; [exact Hf|].
  induction ops as [|[|e] r IH]; intros p s p' s' Hrun H0 Hmax;
    cbn [run_ops acquisitions] in *.
  - inversion Hrun; subst. lia.
  - apply bind_inv in Hrun. destruct Hrun as [[x q] [s1 [H1 Hrun]]].
    pose proof (acquisitions_nonneg r).
    destruct (Ha _ _ _ _ _ H1) as [_ Hq]. cbn [snd] in Hrun.
    destruct (IH _ _ _ _ Hrun) as [E _]; lia.
  - apply bind_inv in Hrun. destruct Hrun as [q [s1 [H1 Hrun]]].
    pose proof (Hf _ _ _ _ _ H1) as Hq.
    pose proof (acquisitions_nonneg r).
    destruct (IH _ _ _ _ Hrun) as [E _]; lia.
Qed.

(** A pool with a non-empty free list stays reachable when its counter
    takes [k] more steps: acquire the head and release it again. *)
Lemma churn k : forall p s L,
  reachable isz NDEBUG p s L -> first_free p <> NULL ->
  exists s',
    reachable isz NDEBUG
      (mkPool (slabs p) (n_slabs p) (cap_slabs p)
              (wrap (n_items p + Z.of_nat k)) (first_free p)) s' L.
Proof.
  induction k as [|k IH]; intros p s L HR Hf.
  - exists s. destruct (reachable_inv _ _ _ HR) as [F HI].
    rewrite Z.add_0_r, wrap_small by exact (inv_count _ _ _ _ _ HI).
    now destruct p.
  - destruct (reachable_inv _ _ _ HR) as [F HI].
    destruct (inv_free_list_nonempty _ _ _ _ HI Hf) as [F' ->].
    destruct (alloc_item_pop _ _ _ _ _ HI) as [nx [Ha HI1]].
    pose proof (reach_alloc _ _ _ _ _ _ _ _ HR Ha) as HR1.
    destruct (inv_free _ _ _ _ (first_free p) HI1) as [Hfr _]; [now left|].
    pose proof (reach_free _ _ _ _ _ _ _ _ HR1 (or_introl eq_refl) Hfr) as HR2.
    assert (Hx : ~ In (first_free p) L).
    { pose proof (inv_nodup_live _ _ _ _ _ HI1) as Hnd. now inversion Hnd. }
    simpl remove in HR2.
    destruct (Z.eq_dec (first_free p) (first_free p)); [|congruence].
    rewrite (notin_remove Z.eq_dec _ _ Hx) in HR2.
    destruct (IH _ _ _ HR2 Hf) as [s' HR3]. exists s'.
    simpl in HR3. unfold wrap in *.
    rewrite Zplus_mod_idemp_l in HR3.
    replace (n_items p + Z.of_nat (S k))
      with (n_items p + 1 + Z.of_nat k) by lia.
    exact HR3.
Qed.

(** C8: when the arena has room for [g >= 1] items, get_slab returns a
    non-null slab in which item [i] points to item [i+1] and the last item
    holds the terminator; the first block of alloc_item makes the slab's
    first item the head of the free list, and so does init_with_cap, whose
    free list is then the [g] items in order. *)
Theorem slab_linked g s :
  0 < brk s -> 1 <= g <= SIZE_MAX -> brk s + g * isz <= limit s ->
  exists sl s',
    get_slab isz g s = Ok sl s' /\ sl <> NULL /\
    (forall i, 0 <= i < g - 1 ->
               load (item isz sl i) s' = Ok (item isz sl (i + 1)) s') /\
    load (item isz sl (g - 1)) s' = Ok NULL s' /\
    (forall p, first_free p = NULL -> Z.max 8 (n_items p) = g ->
               exists p', grow isz p s = Ok p' s' /\ first_free p' = sl) /\
    (forall p s2, state_wf s -> init_with_cap isz g s = Ok p s2 ->
                  first_free p = sl /\
                  chain (cells s2) sl (slab_items isz sl 0 (Z.to_nat g))).
Proof.
  intros Hb Hg Hroom.
  destruct (get_slab_served g s Hb Hg Hroom) as [c [Hrun [Hlink [Hlast _]]]].
  exists (brk s), (set_cells c (served g isz s)).
  assert (Hv : forall i, 0 <= i <= g - 1 ->
            valid_access (item isz (brk s) i)
                         (set_cells c (served g isz s)) = true).
  { intros i Hi. apply valid_access_spec. unfold ptr_size, NULL in *.
    assert (brk s <= item isz (brk s) i) by (unfold item; nia).
    assert (item isz (brk s) i + isz <= brk s + g * isz)
      by (unfold item; nia).
    split; [lia|]. exists (brk s, g * isz). simpl. split; [now left|lia]. }
  split; [exact Hrun|]. split; [unfold NULL; lia|].
  split; [|split; [|split]].
  - intros i Hi. apply load_ok; [apply Hv; lia|apply Hlink; exact Hi].
  - apply load_ok; [apply Hv; lia|exact Hlast].
  - intros p Hf Hmax.
    exists (mkPool (slabs p) (n_slabs p) (cap_slabs p) (n_items p) (brk s)).
    split; [|reflexivity]. unfold grow. rewrite Hf, Z.eqb_refl. cbv zeta.
    rewrite growth_size, Hmax. now rewrite (bind_ok _ _ _ _ _ Hrun).
  - intros p s2 Hwf Hi.
    destruct (Z.le_gt_cases (brk s + g * isz + ptr_size) (limit s))
      as [Hr|Hr].
    + destruct (init_with_cap_served g s Hwf Hg Hr) as [s3 [E [HI _]]].
      rewrite E in Hi. inversion Hi; subst. split; [reflexivity|].
      exact (inv_chain _ _ _ _ _ HI).
    + rewrite (init_with_cap_index_refused _ _ _ _ Hrun) in Hi;
        [discriminate|simpl; lia].
Qed.

(** C9: init_empty returns the all-zero pool - no slab array, slab counters
    0, n_items 0, empty free list - and leaves the state as it was: the
    allocator is not called and nothing is written. *)
Theorem init_empty_zero s :
  exists p,
    init_empty s = Ok p s /\
    slabs p = NULL /\ n_slabs p = 0 /\ cap_slabs p = 0 /\
    n_items p = 0 /\ first_free p = NULL.
Proof. eexists. repeat split. Qed.

Lemma mem_Free_wf q s s' :
  mem_Free q s = Ok tt s' -> state_wf s -> state_wf s'.
Proof.
  unfold mem_Free. intros H [Hb Hbl].
  destruct (q =? NULL); [inversion H; subst; split; auto|].
  destruct (existsb _ _); [|discriminate]. inversion H; subst.
  split; simpl; auto. unfold remove_block.
  rewrite Forall_forall in *. intros b Hin. apply filter_In in Hin.
  apply Hbl. tauto.
Qed.

Lemma deinit_loop_wf a n : forall i s s',
  for_loop n i (fun i => q <- load (a + i * ptr_size) ;; mem_Free q) s
    = Ok tt s' ->
  state_wf s -> state_wf s'.
Proof.
  induction n as [|n IH]; intros i s s' H Hwf; simpl in H.
  - now inversion H; subst.
  - apply bind_inv in H. destruct H as [[] [s1 [H1 H2]]].
    apply bind_inv in H1. destruct H1 as [q [s0 [Hl Hf]]].
    apply load_inv in Hl. destruct Hl as [-> _].
    eapply IH; [exact H2|]. eapply mem_Free_wf; eauto.
Qed.

(** C10: deinit returns on every reachable pool; after deinit the pool is
    the one init_empty returns; a second deinit succeeds, frees nothing (its
    only call is the release of the null index array) and leaves the same
    pool; and the pool is a fresh empty pool for every later use. *)
Theorem deinit_resets :
  (forall p s L,
     reachable isz NDEBUG p s L ->
     exists s', deinit p s = Ok (mkPool NULL 0 0 0 NULL) s') /\
  (forall p s p' s',
     deinit p s = Ok p' s' ->
     init_empty s' = Ok p' s' /\
     deinit p' s' = Ok p' (log_event (EvFree NULL) s') /\
     (state_wf s -> reachable isz NDEBUG p' s' [])).
Proof.
  split.
  - intros p s L HR. destruct (reachable_index p s L HR) as [F [_ HX]].
    exact (deinit_index p s _ HX).
  - unfold deinit. intros p s p' s' H.
    apply bind_inv in H. destruct H as [[] [s1 [H1 H]]].
    apply bind_inv in H. destruct H as [[] [s2 [H2 H]]].
    inversion H; subst. split; [reflexivity|]. split; [reflexivity|].
    intros Hwf. eapply reach_init_empty; [|reflexivity].
    eapply mem_Free_wf; [exact H2|]. eapply deinit_loop_wf; eauto.
Qed.

End PoolProperties.

(** ** The pool of 16-byte items in a small arena *)

Lemma item16_ok : ptr_size <= 16.
Proof. unfold ptr_size. lia. Qed.

Lemma state_wfb_ok s : state_wfb s = true -> state_wf s.
Proof.
  unfold state_wfb, state_wf. rewrite andb_true_iff, forallb_forall.
  intros [Hb Hbl]. split; [lia|]. apply Forall_forall. intros b Hin.
  specialize (Hbl b Hin). rewrite !andb_true_iff in Hbl.
  unfold block_ok. lia.
Qed.

Lemma arena_wf lo hi : 0 < lo -> state_wf (arena lo hi).
Proof. intros H. split; [exact H|constructor]. Qed.

Lemma first_alloc_ok :
  alloc_item 16 false empty_pool (arena 4096 8192) = Ok (4096, pool1) state1.
Proof. vm_compute. reflexivity. Qed.

Lemma pool1_reachable : reachable 16 false pool1 state1 [4096].
Proof.
  apply (reach_alloc 16 false empty_pool (arena 4096 8192) [] 4096 pool1
                     state1); [|exact first_alloc_ok].
  apply (reach_init_empty 16 false (arena 4096 8192) empty_pool
                          (arena 4096 8192)); [|reflexivity].
  apply arena_wf. lia.
Qed.

Lemma no_aliasing_witness :
  NoDup [4096] /\
  (forall a b, In a [4096] -> In b [4096] -> a <> b -> apart 16 a b) /\
  (forall x p' s', alloc_item 16 false pool1 state1 = Ok (x, p') s' ->
                   ~ In x [4096] /\ forall a, In a [4096] -> apart 16 x a).
Proof.
  apply (no_aliasing 16 false item16_ok pool1 state1 [4096]).
  exact pool1_reachable.
Defined.

Lemma lifo_reuse_witness :
  (exists p2 s2 p3,
     free_item pool1 4096 state1 = Ok p2 s2 /\
     alloc_item 16 false p2 s2 = Ok (4096, p3) s2 /\
     alloc_log s2 = alloc_log state1 /\ blocks s2 = blocks state1) /\
  (exists p3,
     alloc_item 16 false (mkPool NULL 0 0 1 4096)
                (set_cells (write_cell 4096 4112 (cells state1)) state1) =
       Ok (4096, p3)
          (set_cells (write_cell 4096 4112 (cells state1)) state1)) /\
  (exists p2 s2 p3,
     free_items [4128; 4112] (mkPool NULL 0 0 3 4144) state1 = Ok p2 s2 /\
     alloc_items 16 false 2 p2 s2 = Ok (rev [4128; 4112], p3) s2 /\
     alloc_log s2 = alloc_log state1 /\ blocks s2 = blocks state1).
Proof.
  destruct (lifo_reuse 16 false item16_ok) as [H1 [H2 H3]].
  split; [|split].
  - apply (H1 empty_pool (arena 4096 8192) 4096 pool1 state1).
    exact first_alloc_ok.
  - apply (H2 pool1 4096 state1).
    vm_compute. reflexivity.
  - apply (H3 2%nat pool1 state1 [4096] [4112; 4128]
              (mkPool NULL 0 0 3 4144) state1 [4128; 4112]).
    + exact pool1_reachable.
    + vm_compute. reflexivity.
    + apply perm_swap.
Defined.

Lemma growth_request_witness :
  (exists r,
     alloc_log (final_state (alloc_item 16 false empty_pool (arena 4096 8192)))
     = EvAlloc (Z.max 8 (n_items empty_pool)) 16 r ::
       alloc_log (arena 4096 8192)) /\
  (exists p0 s0 xs p4,
     init_with_cap 16 4 (arena 4096 8192) = Ok p0 s0 /\
     alloc_items 16 false 4 p0 s0 = Ok (xs, p4) s0 /\
     NoDup xs /\ first_free p4 = NULL /\ n_items p4 = 4 /\
     exists r,
       alloc_log (final_state (alloc_item 16 false p4 s0)) =
       EvAlloc 8 16 r :: alloc_log s0) /\
  (exists r,
     alloc_log (final_state (alloc_item 16 false empty_pool (arena 4096 8192)))
     = EvAlloc 8 16 r :: alloc_log (arena 4096 8192)).
Proof.
  destruct (growth_request 16 false item16_ok) as [H1 [H2 H3]].
  split; [|split].
  - apply (H1 empty_pool (arena 4096 8192)). reflexivity.
  - apply (H2 (arena 4096 8192)).
    + apply arena_wf. lia.
    + vm_compute. discriminate.
  - apply (H3 (arena 4096 8192) empty_pool (arena 4096 8192)). reflexivity.
Defined.

Lemma counter_steps_witness :
  (n_items pool1 = wrap (n_items empty_pool + 1) /\
   (0 <= n_items empty_pool < SIZE_MAX ->
    n_items pool1 = n_items empty_pool + 1)) /\
  n_items (mkPool NULL 0 0 1 4096) = n_items pool1 /\
  (n_items (mkPool NULL 0 0 2 4112) =
     n_items empty_pool + acquisitions [Acquire; Release 4096; Acquire] /\
   n_items empty_pool <= n_items (mkPool NULL 0 0 2 4112)).
Proof.
  destruct (counter_steps 16 false) as [H1 [H2 H3]].
  split; [|split].
  - apply (H1 empty_pool (arena 4096 8192) 4096 pool1 state1).
    exact first_alloc_ok.
  - apply (H2 pool1 4096 state1 (mkPool NULL 0 0 1 4096)
              (set_cells (write_cell 4096 4112 (cells state1)) state1)).
    vm_compute. reflexivity.
  - apply (H3 [Acquire; Release 4096; Acquire] empty_pool (arena 4096 8192)
              (mkPool NULL 0 0 2 4112)
              (set_cells (write_cell 4096 4112 (cells state1)) state1)).
    + vm_compute. reflexivity.
    + vm_compute. discriminate.
    + vm_compute. discriminate.
Defined.

Lemma slab_linked_witness :
  exists sl s',
    get_slab 16 8 (arena 4096 8192) = Ok sl s' /\ sl <> NULL /\
    (forall i, 0 <= i < 8 - 1 ->
               load (item 16 sl i) s' = Ok (item 16 sl (i + 1)) s') /\
    load (item 16 sl (8 - 1)) s' = Ok NULL s' /\
    (forall p, first_free p = NULL -> Z.max 8 (n_items p) = 8 ->
               exists p', grow 16 p (arena 4096 8192) = Ok p' s' /\
                          first_free p' = sl) /\
    (forall p s2, state_wf (arena 4096 8192) ->
                  init_with_cap 16 8 (arena 4096 8192) = Ok p s2 ->
                  first_free p = sl /\
                  chain (cells s2) sl (slab_items 16 sl 0 (Z.to_nat 8))).
Proof.
  apply (slab_linked 16 item16_ok 8 (arena 4096 8192)).
  - vm_compute. reflexivity.
  - split; vm_compute; discriminate.
  - vm_compute. discriminate.
Defined.

Lemma deinit_resets_witness :
  (exists s', deinit pool1 state1 = Ok (mkPool NULL 0 0 0 NULL) s') /\
  init_empty state_leak_cap = Ok empty_pool state_leak_cap /\
  deinit empty_pool state_leak_cap =
    Ok empty_pool (log_event (EvFree NULL) state_leak_cap) /\
  reachable 16 false empty_pool state_leak_cap [].
Proof.
  destruct (deinit_resets 16 false item16_ok) as [H0 H].
  split; [exact (H0 pool1 state1 [4096] pool1_reachable)|].
  destruct (H pool_used state_used empty_pool state_leak_cap)
    as [H1 [H2 H3]].
  - vm_compute. reflexivity.
  - split; [exact H1|]. split; [exact H2|].
    apply H3, state_wfb_ok. vm_compute. reflexivity.
Defined.

(** C7, as stated, fails when the counter is SIZE_MAX: the pool that holds
    item 4096 and whose counter has reached SIZE_MAX is reachable (by
    acquiring and releasing one item over and over), and its next
    acquisition succeeds and sets n_items to 0, which is neither one more
    than before nor at least what it was. *)
Lemma counter_wraps_at_size_max :
  alloc_item 16 false pool_max state1 =
    Ok (4112, mkPool NULL 0 0 0 4128) state1 /\
  n_items (mkPool NULL 0 0 0 4128) <> n_items pool_max + 1 /\
  n_items (mkPool NULL 0 0 0 4128) < n_items pool_max /\
  exists s p',
    reachable 16 false pool_max s [4096] /\
    alloc_item 16 false pool_max s = Ok (4112, p') s /\
    n_items p' = 0.
Proof.
  split; [vm_compute; reflexivity|].
  split; [vm_compute; discriminate|].
  split; [vm_compute; reflexivity|].
  destruct (churn 16 false item16_ok (Z.to_nat (SIZE_MAX - 1)) pool1 state1
                  [4096] pool1_reachable) as [s HR].
  { vm_compute. discriminate. }
  assert (E : wrap (n_items pool1 + Z.of_nat (Z.to_nat (SIZE_MAX - 1)))
              = SIZE_MAX).
  { rewrite Z2Nat.id by (unfold SIZE_MAX; lia).
    change (n_items pool1) with 1.
    replace (1 + (SIZE_MAX - 1)) with SIZE_MAX by ring.
    apply wrap_small. unfold SIZE_MAX. lia. }
  rewrite E in HR. change (reachable 16 false pool_max s [4096]) in HR.
  destruct (reachable_inv 16 false item16_ok _ _ _ HR) as [F HI].
  destruct (inv_free_list_nonempty 16 _ _ _ _ HI) as [F' ->].
  { vm_compute. discriminate. }
  destruct (alloc_item_pop 16 false item16_ok _ _ _ _ _ HI) as [nx [Ha _]].
  exists s. eexists. split; [exact HR|]. split; [exact Ha|].
  vm_compute. reflexivity.
Qed.

(** C1 (defect): a slab that alloc_item allocates when the free list is
    empty is not entered into the slab array, so deinit does not free it.
    From the empty pool: after one acquisition n_slabs is still 0, and after
    the release and deinit the slab at 4096 is still allocated.  From a pool
    of capacity 4: after five acquisitions, five releases and deinit, the
    first slab and the index array are freed and the second slab, at 4168,
    is still allocated. *)
Theorem growth_slab_never_freed :
  (alloc_item 16 false empty_pool (arena 4096 8192) = Ok (4096, pool1) state1
   /\ blocks state1 = [(4096, 128)]
   /\ n_slabs pool1 = 0 /\ slabs pool1 = NULL) /\
  (leak_run (arena 4096 8192) = Ok empty_pool state_leak
   /\ blocks state_leak = [(4096, 128)]
   /\ alloc_log state_leak = [EvFree NULL; EvAlloc 8 16 4096]) /\
  (leak_run_cap (arena 4096 8192) = Ok empty_pool state_leak_cap
   /\ blocks state_leak_cap = [(4168, 128)]
   /\ alloc_log state_leak_cap =
        [EvFree 4160; EvFree 4096;
         EvAlloc 8 16 4168; EvAlloc 1 8 4160; EvAlloc 4 16 4096]).
Proof. repeat split; vm_compute; reflexivity. Qed.

(** C2 (defect): with an empty free list and an exhausted arena, alloc_item
    does not return the null pointer: the assert fails, and under NDEBUG the
    null pointer is dereferenced; [err] has been set by then.  The same
    happens to a pool of capacity 4 at its fifth acquisition. *)
Theorem alloc_item_exhausted :
  alloc_item 16 false empty_pool (arena 4096 4096) =
    Abort (refused 8 16 (arena 4096 4096)) /\
  alloc_item 16 true empty_pool (arena 4096 4096) =
    Fault (refused 8 16 (arena 4096 4096)) /\
  err (refused 8 16 (arena 4096 4096)) = csnip_err_NOMEM /\
  drained_pool (arena 4096 4168) = Ok pool_drained state_drained /\
  first_free pool_drained = NULL /\ n_items pool_drained = 4 /\
  alloc_item 16 false pool_drained state_drained =
    Abort (refused 8 16 state_drained) /\
  alloc_item 16 true pool_drained state_drained =
    Fault (refused 8 16 state_drained).
Proof. repeat split; vm_compute; reflexivity. Qed.

(** C3 (defect): when the index array cannot be allocated, init_with_cap
    writes through the null pointer instead of returning: with room for the
    slab only, the slab at 4096 stays allocated and no pool is returned;
    with no room at all, the same write happens.  With room for the index
    array only, a pool is returned whose index array holds the null
    pointer, and [err] is set. *)
Theorem init_with_cap_index_failure :
  (init_with_cap 16 4 (arena 4096 4160) = Fault state_no_index
   /\ blocks state_no_index = [(4096, 64)]
   /\ err state_no_index = csnip_err_NOMEM) /\
  init_with_cap 16 4 (arena 4096 4096) =
    Fault (refused 1 ptr_size (refused 4 16 (arena 4096 4096))) /\
  (init_with_cap 16 4 (arena 4096 4104) =
     Ok (mkPool 4096 1 1 0 NULL) state_no_slab
   /\ get (cells state_no_slab) 4096 = Some NULL
   /\ err state_no_slab = csnip_err_NOMEM).
Proof. repeat split; vm_compute; reflexivity. Qed.

(** ** Further properties of the pool functions *)

Section MorePoolProperties.

Variable isz : Z.
Variable NDEBUG : bool.
Hypothesis isz_ok : ptr_size <= isz.

Lemma alloc_item_head p s x p' s' :
  first_free p <> NULL ->
  (alloc_item isz NDEBUG p s = Ok (x, p') s' <->
   s' = s /\ x = first_free p /\ valid_access x s = true /\
   exists nx,
     get (cells s) x = Some nx /\
     p' = mkPool (slabs p) (n_slabs p) (cap_slabs p)
                 (wrap (n_items p + 1)) nx).
Proof.
  intros Hf. unfold alloc_item.
  rewrite (bind_ok _ _ _ _ _ (grow_nonempty isz p s Hf)). split.
  - apply pop_inv.
  - intros [-> [-> [Hv [nx [Hc ->]]]]]. now apply pop_ok.
Qed.


(** X2: releasing the same item twice makes it its own successor: from then on
    every acquisition returns that item, and the pool never grows again. *)
Theorem double_release_cycles p e s :
  valid_access e s = true ->
  exists p1 s1 p2 s2,
    free_item p e s = Ok p1 s1 /\
    free_item p1 e s1 = Ok p2 s2 /\
    forall n, exists p',
      alloc_items isz NDEBUG n p2 s2 = Ok (repeat e n, p') s2 /\
      first_free p' = e.
Proof.
  intros Hv.
  set (s1 := set_cells (write_cell e (first_free p) (cells s)) s).
  set (p1 := mkPool (slabs p) (n_slabs p) (cap_slabs p) (n_items p) e).
  set (s2 := set_cells (write_cell e e (cells s1)) s1).
  set (p2 := mkPool (slabs p1) (n_slabs p1) (cap_slabs p1) (n_items p1) e).
  exists p1, s1, p2, s2.
  assert (Hv1 : valid_access e s1 = true) by exact Hv.
  assert (Hv2 : valid_access e s2 = true) by exact Hv.
  split; [|split].
  - unfold free_item. now rewrite (bind_ok _ _ _ _ _ (store_ok _ _ _ Hv)).
  - unfold free_item. now rewrite (bind_ok _ _ _ _ _ (store_ok _ _ _ Hv1)).
  - assert (Hc : get (cells s2) e = Some e) by apply write_cell_same.
    assert (Hn : e <> NULL) by (apply valid_access_spec in Hv; tauto).
    assert (Hgen : forall n q, first_free q = e ->
              exists p', alloc_items isz NDEBUG n q s2 = Ok (repeat e n, p') s2
                         /\ first_free p' = e).
    { induction n as [|n IH]; intros q Hq.
      - exists q. split; [reflexivity|exact Hq].
      - assert (Ha : alloc_item isz NDEBUG q s2 =
                     Ok (e, mkPool (slabs q) (n_slabs q) (cap_slabs q)
                                   (wrap (n_items q + 1)) e) s2).
        { apply alloc_item_head; [congruence|].
          rewrite Hq. repeat split; auto. exists e. auto. }
        destruct (IH (mkPool (slabs q) (n_slabs q) (cap_slabs q)
                             (wrap (n_items q + 1)) e) eq_refl)
          as [p' [Hr Hp']].
        exists p'. split; [|exact Hp'].
        simpl alloc_items. rewrite (bind_ok _ _ _ _ _ Ha). simpl snd.
        rewrite (bind_ok _ _ _ _ _ Hr). reflexivity. }
    intros n. apply Hgen. reflexivity.
Qed.

Lemma length_slab_items sl n : forall i,
  length (slab_items isz sl i n) = n.
Proof. induction n as [|n IH]; intros i; simpl; auto. Qed.

Lemma slab_items_app sl n m : forall i,
  slab_items isz sl i (n + m) =
  slab_items isz sl i n ++ slab_items isz sl (i + Z.of_nat n) m.
Proof.
  induction n as [|n IH]; intros i.
  - simpl. now rewrite Z.add_0_r.
  - change (S n + m)%nat with (S (n + m)). simpl. rewrite IH.
    replace (i + 1 + Z.of_nat n) with (i + Z.pos (Pos.of_succ_nat n)) by lia.
    reflexivity.
Qed.

(** X3: a pool built by init_with_cap(cap) serves its first [cap] acquisitions
    from the one slab, in address order, without calling the allocator and
    without writing memory; the free list is then empty and n_items is
    [cap]. *)
Theorem prealloc_serves_cap cap s :
  state_wf s -> 1 <= cap <= SIZE_MAX ->
  brk s + cap * isz + ptr_size <= limit s ->
  exists p0 s0 p',
    init_with_cap isz cap s = Ok p0 s0 /\
    alloc_log s0 = EvAlloc 1 ptr_size (brk s + cap * isz) ::
                   EvAlloc cap isz (brk s) :: alloc_log s /\
    alloc_items isz NDEBUG (Z.to_nat cap) p0 s0 =
      Ok (slab_items isz (brk s) 0 (Z.to_nat cap), p') s0 /\
    first_free p' = NULL /\ n_items p' = cap.
Proof.
  intros Hwf Hcap Hroom.
  destruct (init_with_cap_served isz isz_ok cap s Hwf Hcap Hroom)
    as [s0 [Hi [HI [_ [_ [_ Hlog]]]]]].
  rewrite <- (app_nil_r (slab_items isz (brk s) 0 (Z.to_nat cap))) in HI.
  destruct (alloc_items_pop isz NDEBUG isz_ok _ _ _ _ _ HI)
    as [p' [Ha [HI' Hn]]].
  rewrite length_slab_items in Ha, Hn.
  exists (mkPool (brk s + cap * isz) 1 1 0 (brk s)), s0, p'.
  split; [exact Hi|]. split; [exact Hlog|]. split; [exact Ha|]. split.
  - exact (inv_chain _ _ _ _ _ HI').
  - simpl in Hn. rewrite Z2Nat.id in Hn by lia. apply Hn. lia.
Qed.

Lemma tight_pop C n : tight C n -> n < C -> tight C (n + 1).
Proof. unfold tight. lia. Qed.

Lemma tight_grow n : 0 <= n -> tight n n -> tight (n + Z.max 8 n) (n + 1).
Proof. unfold tight. lia. Qed.

Lemma tight_room n k :
  0 <= n -> 1 <= k -> tight n n ->
  n + Z.max 8 n <= Z.max 8 (2 * (n + k)).
Proof. unfold tight. lia. Qed.

(** The general step behind the growth bound: [k] more acquisitions on a
    pool that has only ever acquired. *)
Lemma acquire_only_run k : forall p s F L C b0,
  Inv isz p s F L ->
  n_items p + Z.of_nat (length F) = C -> brk s = b0 + C * isz ->
  tight C (n_items p) ->
  n_items p + Z.of_nat k <= SIZE_MAX ->
  b0 + Z.max 8 (2 * (n_items p + Z.of_nat k)) * isz <= limit s ->
  exists xs p' s' F' C',
    alloc_items isz NDEBUG k p s = Ok (xs, p') s' /\
    Inv isz p' s' F' (rev xs ++ L) /\
    n_items p' = n_items p + Z.of_nat k /\
    n_items p' + Z.of_nat (length F') = C' /\
    brk s' = b0 + C' * isz /\ tight C' (n_items p') /\
    err s' = err s.
Proof.
  induction k as [|k IH]; intros p s F L C b0 HI HC Hb Ht Hmax Hroom.
  - exists [], p, s, F, C. simpl. rewrite Z.add_0_r.
    split; [reflexivity|]. split; [exact HI|]. split; [reflexivity|].
    split; [exact HC|]. split; [exact Hb|]. split; [exact Ht|reflexivity].
  - pose proof (inv_count _ _ _ _ _ HI) as Hn.
    assert (Hw : wrap (n_items p + 1) = n_items p + 1)
      by (apply wrap_small; lia).
    destruct F as [|x F1].
    + simpl in HC. rewrite Z.add_0_r in HC. subst C.
      assert (Hr : brk s + Z.max 8 (n_items p) * isz <= limit s).
      { pose proof (tight_room (n_items p) (Z.of_nat (S k))
                               ltac:(lia) ltac:(lia) Ht).
        unfold ptr_size in *. nia. }
      destruct (alloc_item_grow isz NDEBUG isz_ok p s L HI Hr)
        as [c [nx [Ha [HI1 _]]]].
      set (g := Z.max 8 (n_items p)) in *.
      destruct (IH _ _ _ _ (n_items p + g) b0 HI1) as
          [xs [p' [s' [F' [C' [Hrun [HI' [Hn' [HC' [Hb' [Ht' He']]]]]]]]]]].
      * simpl n_items. rewrite Hw, length_slab_items, Z2Nat.id by lia. lia.
      * simpl. rewrite Hb. ring.
      * simpl n_items. rewrite Hw. apply tight_grow; [lia|exact Ht].
      * simpl n_items. rewrite Hw. lia.
      * simpl n_items. simpl limit. rewrite Hw.
        replace (n_items p + 1 + Z.of_nat k)
          with (n_items p + Z.of_nat (S k)) by lia. exact Hroom.
      * exists (brk s :: xs), p', s', F', C'.
        simpl n_items in *. rewrite Hw in *.
        split; [|split; [|split; [|split; [|split; [|split]]]]]; auto.
        -- simpl alloc_items. rewrite (bind_ok _ _ _ _ _ Ha). simpl snd.
           rewrite (bind_ok _ _ _ _ _ Hrun). reflexivity.
        -- simpl rev. rewrite <- app_assoc. exact HI'.
        -- lia.
    + destruct (alloc_item_pop isz NDEBUG isz_ok p s x F1 L HI)
        as [nx [Ha HI1]].
      simpl length in HC. rewrite Nat2Z.inj_succ in HC.
      destruct (IH _ _ _ _ C b0 HI1) as
          [xs [p' [s' [F' [C' [Hrun [HI' [Hn' [HC' [Hb' [Ht' He']]]]]]]]]]].
      * simpl n_items. rewrite Hw. lia.
      * exact Hb.
      * simpl n_items. rewrite Hw. apply tight_pop; [exact Ht|lia].
      * simpl n_items. rewrite Hw. lia.
      * simpl n_items. rewrite Hw.
        replace (n_items p + 1 + Z.of_nat k)
          with (n_items p + Z.of_nat (S k)) by lia. exact Hroom.
      * exists (x :: xs), p', s', F', C'.
        simpl n_items in *. rewrite Hw in *.
        split; [|split; [|split; [|split; [|split; [|split]]]]]; auto.
        -- simpl alloc_items. rewrite (bind_ok _ _ _ _ _ Ha). simpl snd.
           rewrite (bind_ok _ _ _ _ _ Hrun). reflexivity.
        -- simpl rev. rewrite <- app_assoc. exact HI'.
        -- lia.
Qed.

(** X4: growth by doubling: [n] acquisitions in a row from the empty pool
    succeed when the arena has room for max(8, 2n) items; the slabs then
    hold [C] items in all, where [C] is 8 for [n <= 8] and otherwise
    [n <= C < 2n]; [C - n] of them are on the free list, and the [n]
    returned items are pairwise distinct. *)
Theorem acquire_only_growth n s :
  state_wf s -> Z.of_nat n <= SIZE_MAX ->
  brk s + Z.max 8 (2 * Z.of_nat n) * isz <= limit s ->
  exists xs p' s' F C,
    alloc_items isz NDEBUG n (mkPool NULL 0 0 0 NULL) s = Ok (xs, p') s' /\
    n_items p' = Z.of_nat n /\ tight C (Z.of_nat n) /\
    brk s' = brk s + C * isz /\ err s' = err s /\
    chain (cells s') (first_free p') F /\
    Z.of_nat (length F) = C - Z.of_nat n /\ NoDup xs.
Proof.
  intros Hwf Hn Hroom.
  assert (Ht0 : tight 0 (n_items (mkPool NULL 0 0 0 NULL)))
    by (left; auto).
  destruct (acquire_only_run n (mkPool NULL 0 0 0 NULL) s [] [] 0 (brk s)
              (inv_empty isz 0 0 0 s Hwf) eq_refl ltac:(lia) Ht0 Hn Hroom)
    as [xs [p' [s' [F [C [Hrun [HI [Hn' [HC [Hb [Ht He]]]]]]]]]]].
  exists xs, p', s', F, C. simpl in Hn'. rewrite Hn' in *.
  split; [exact Hrun|]. split; [reflexivity|]. split; [exact Ht|].
  split; [exact Hb|]. split; [exact He|].
  split; [exact (inv_chain _ _ _ _ _ HI)|]. split; [lia|].
  pose proof (inv_nodup_live _ _ _ _ _ HI) as Hnd.
  rewrite app_nil_r in Hnd. apply NoDup_rev in Hnd.
  now rewrite rev_involutive in Hnd.
Qed.

Lemma remove_block_notin q bl :
  (forall b, In b bl -> fst b <> q) -> remove_block q bl = bl.
Proof.
  intros H. unfold remove_block. induction bl as [|b r IH]; simpl; auto.
  destruct (Z.eqb_spec (fst b) q) as [E|_]; simpl.
  - exfalso. apply (H b); [now left|exact E].
  - rewrite IH; auto. intros b' Hb'. apply H. now right.
Qed.

Lemma mem_Free_live q sz s :
  q <> NULL -> In (q, sz) (blocks s) ->
  mem_Free q s =
    Ok tt (log_event (EvFree q) (set_blocks (remove_block q (blocks s)) s)).
Proof.
  intros Hn Hin. unfold mem_Free. apply Z.eqb_neq in Hn. rewrite Hn.
  assert (E : existsb (fun b => fst b =? q) (blocks s) = true).
  { apply existsb_exists. exists (q, sz). split; [exact Hin|].
    apply Z.eqb_refl. }
  now rewrite E.
Qed.

(** deinit of a pool whose slab array has one entry, the base of a live
    slab: the slab is freed, then the array, and nothing else changes. *)
Lemma deinit_one_slab p s sl sz zi :
  n_slabs p = 1 -> slabs p <> NULL -> sl <> NULL -> sl <> slabs p ->
  In (slabs p, zi) (blocks s) -> ptr_size <= zi ->
  In (sl, sz) (blocks s) -> get (cells s) (slabs p) = Some sl ->
  exists s2,
    deinit p s = Ok (mkPool NULL 0 0 0 NULL) s2 /\
    blocks s2 = remove_block (slabs p) (remove_block sl (blocks s)) /\
    alloc_log s2 = EvFree (slabs p) :: EvFree sl :: alloc_log s /\
    cells s2 = cells s /\ brk s2 = brk s /\ err s2 = err s.
Proof.
  intros Hn Hi Hs Hne Hbi Hzi Hbs Hc.
  assert (Hv : valid_access (slabs p) s = true).
  { apply valid_access_spec. split; [exact Hi|].
    exists (slabs p, zi). simpl. split; [exact Hbi|lia]. }
  set (s1 := log_event (EvFree sl)
               (set_blocks (remove_block sl (blocks s)) s)).
  assert (Hbi1 : In (slabs p, zi) (blocks s1)).
  { simpl. apply filter_In. split; [exact Hbi|]. simpl.
    apply negb_true_iff, Z.eqb_neq. congruence. }
  exists (log_event (EvFree (slabs p))
            (set_blocks (remove_block (slabs p) (blocks s1)) s1)).
  split; [|repeat split].
  unfold deinit. rewrite Hn. change (Z.to_nat 1) with 1%nat.
  cbn [for_loop]. replace (slabs p + 0 * ptr_size) with (slabs p) by ring.
  unfold bind at 1 2 3.
  rewrite (load_ok _ _ _ Hv Hc), (mem_Free_live sl sz s Hs Hbs).
  fold s1. unfold ret at 1. unfold bind.
  rewrite (mem_Free_live (slabs p) zi s1 Hi Hbi1). reflexivity.
Qed.

(** X5: init_with_cap followed at once by deinit: the slab and the slab array
    are freed, in this order, and the live blocks are those from before the
    construction (an empty block at the same address as the slab apart);
    [err] is untouched. *)
Theorem init_then_deinit cap s :
  state_wf s -> 1 <= cap <= SIZE_MAX ->
  brk s + cap * isz + ptr_size <= limit s ->
  exists p0 s0 s1,
    init_with_cap isz cap s = Ok p0 s0 /\
    deinit p0 s0 = Ok (mkPool NULL 0 0 0 NULL) s1 /\
    alloc_log s1 = EvFree (brk s + cap * isz) :: EvFree (brk s) ::
                   EvAlloc 1 ptr_size (brk s + cap * isz) ::
                   EvAlloc cap isz (brk s) :: alloc_log s /\
    blocks s1 = remove_block (brk s) (blocks s) /\
    ((forall b, In b (blocks s) -> fst b <> brk s) ->
     blocks s1 = blocks s) /\
    err s1 = err s.
Proof.
  intros Hwf Hcap Hroom. pose proof Hwf as [Hb Hbl].
  assert (Hpos : 0 < cap * isz) by (unfold ptr_size in *; nia).
  destruct (init_with_cap_served isz isz_ok cap s Hwf Hcap Hroom)
    as [s0 [Hi [_ [Hc [Hbs [He Hlog]]]]]].
  set (p0 := mkPool (brk s + cap * isz) 1 1 0 (brk s)) in *.
  destruct (deinit_one_slab p0 s0 (brk s) (cap * isz) (1 * ptr_size))
    as [s1 [Hd [Hb1 [Hl1 [_ [_ He1]]]]]]; simpl;
    try (unfold NULL; lia); try (rewrite Hbs; simpl; auto); auto.
  { unfold ptr_size. lia. }
  assert (Hblocks : blocks s1 = remove_block (brk s) (blocks s)).
  { rewrite Hb1, Hbs. simpl. unfold remove_block at 2. simpl.
    destruct (Z.eqb_spec (brk s + cap * isz) (brk s)) as [E|_]; [lia|].
    rewrite Z.eqb_refl. simpl. unfold remove_block at 1. simpl.
    rewrite Z.eqb_refl. simpl. apply remove_block_notin.
    intros b Hin. unfold remove_block in Hin. apply filter_In in Hin.
    destruct Hin as [Hin _]. rewrite Forall_forall in Hbl.
    specialize (Hbl b Hin). unfold block_ok in Hbl. lia. }
  exists p0, s0, s1. split; [exact Hi|]. split; [exact Hd|].
  split; [rewrite Hl1, Hlog; reflexivity|]. split; [exact Hblocks|].
  split; [|congruence].
  intros Hfresh. rewrite Hblocks. now apply remove_block_notin.
Qed.

(** X6: what init_with_cap reports when it returns: the pool always has a slab
    array of one entry; either the slab was allocated, the free list starts
    at it and [err] is untouched, or the slab could not be allocated, the
    free list is empty and [err] holds the out-of-memory code. *)
Theorem init_with_cap_reports cap s p s' :
  state_wf s -> 0 < cap <= SIZE_MAX ->
  init_with_cap isz cap s = Ok p s' ->
  n_slabs p = 1 /\ cap_slabs p = 1 /\ n_items p = 0 /\ slabs p <> NULL /\
  ((brk s + cap * isz <= limit s /\ first_free p = brk s /\
    first_free p <> NULL /\ err s' = err s) \/
   (limit s < brk s + cap * isz /\ first_free p = NULL /\
    err s' = csnip_err_NOMEM)).
Proof.
  intros Hwf Hcap Hrun. pose proof Hwf as [Hb _].
  assert (Hcap' : 1 <= cap <= SIZE_MAX) by lia.
  assert (Hpos : 0 < cap * isz) by (unfold ptr_size in *; nia).
  destruct (Z.le_gt_cases (brk s + cap * isz) (limit s)) as [Hr1|Hr1].
  - destruct (Z.le_gt_cases (brk s + cap * isz + ptr_size) (limit s))
      as [Hr2|Hr2].
    + destruct (init_with_cap_served isz isz_ok cap s Hwf Hcap' Hr2)
        as [s2 [E [_ [_ [_ [He _]]]]]].
      rewrite E in Hrun. inversion Hrun; subst. simpl.
      split; [reflexivity|]. split; [reflexivity|]. split; [reflexivity|].
      split; [unfold NULL; lia|]. left.
      repeat split; auto; unfold NULL; lia.
    + destruct (get_slab_served isz isz_ok cap s Hb Hcap' Hr1) as [c [Hg _]].
      rewrite (init_with_cap_index_refused isz _ _ _ _ Hg) in Hrun;
        [discriminate|simpl; lia].
  - destruct (Z.le_gt_cases (brk s + ptr_size) (limit s)) as [Hr2|Hr2].
    + destruct (init_with_cap_slab_refused isz cap s Hwf Hr1 Hr2)
        as [s2 [E [_ [_ [_ He]]]]].
      rewrite E in Hrun. inversion Hrun; subst. simpl.
      split; [reflexivity|]. split; [reflexivity|]. split; [reflexivity|].
      split; [unfold NULL; lia|]. right. repeat split; auto.
    + rewrite (init_with_cap_index_refused isz _ _ _ _
                 (get_slab_refused isz cap s Hr1)) in Hrun;
        [discriminate|simpl; lia].
Qed.

(** X7: what the client has stored in an item it holds is still there, and
    readable, after any acquisition and after the release of any other
    held item: the pool writes only to free items. *)
Theorem held_data_untouched p s L e a v :
  reachable isz NDEBUG p s L -> In e L ->
  e <= a -> a + ptr_size <= e + isz -> get (cells s) a = Some v ->
  (forall x p' s',
     alloc_item isz NDEBUG p s = Ok (x, p') s' -> load a s' = Ok v s') /\
  (forall e' p' s',
     In e' L -> e' <> e -> free_item p e' s = Ok p' s' ->
     load a s' = Ok v s').
Proof.
  intros HR He Hlo Hhi Hc.
  destruct (reachable_inv isz NDEBUG isz_ok p s L HR) as [F HI].
  assert (Hok : item_ok isz s e).
  { apply (inv_items _ _ _ _ _ HI), in_or_app. auto. }
  pose proof (item_ok_below isz s e (inv_wf _ _ _ _ _ HI) Hok) as Hbelow.
  assert (Hv : valid_access a s = true).
  { destruct Hok as [Hn [b [Hb Hin]]]. apply valid_access_spec.
    split; [unfold NULL, ptr_size in *; destruct (inv_wf _ _ _ _ _ HI) as [_ Hbl];
            rewrite Forall_forall in Hbl; specialize (Hbl b Hb);
            unfold block_ok in Hbl; lia|].
    exists b. split; [exact Hb|lia]. }
  split.
  - intros x p' s' Hrun.
    destruct (Z.eq_dec (first_free p) NULL) as [Hf|Hf].
    + pose proof (inv_free_list_empty isz _ _ _ _ HI Hf) as ->.
      destruct (Z.le_gt_cases (brk s + Z.max 8 (n_items p) * isz) (limit s))
        as [Hroom|Hroom].
      * destruct (alloc_item_grow isz NDEBUG isz_ok p s L HI Hroom)
          as [c [nx [Hg [_ Hout]]]].
        rewrite Hg in Hrun. inversion Hrun; subst. apply load_ok.
        -- apply valid_access_spec in Hv. destruct Hv as [Hn [b [Hb Hin]]].
           apply valid_access_spec. split; [exact Hn|].
           exists b. split; [simpl; auto|exact Hin].
        -- simpl. rewrite Hout; [exact Hc|]. unfold ptr_size in *. lia.
      * rewrite (alloc_item_refused isz NDEBUG) in Hrun by (auto; lia).
        destruct NDEBUG; discriminate.
    + apply (alloc_item_head p s x p' s' Hf) in Hrun.
      destruct Hrun as [-> _]. now apply load_ok.
  - intros e' p' s' He' Hne Hrun.
    destruct (inv_free isz isz_ok p s F L e' HI He') as [E _].
    rewrite E in Hrun. inversion Hrun; subst. apply load_ok; [exact Hv|].
    simpl. rewrite write_cell_other; [exact Hc|].
    assert (apart isz e' e).
    { apply (inv_apart _ _ _ _ _ HI); try (apply in_or_app; auto). exact Hne. }
    unfold apart, ptr_size in *. lia.
Qed.

Lemma alloc_items_fields n : forall p s xs p' s',
  alloc_items isz NDEBUG n p s = Ok (xs, p') s' ->
  slabs p' = slabs p /\ n_slabs p' = n_slabs p.
Proof.
  induction n as [|n IH]; intros p s xs p' s' Hrun; simpl in Hrun.
  - inversion Hrun; subst. auto.
  - apply bind_inv in Hrun. destruct Hrun as [[x q] [s1 [Ha Hrun]]].
    apply bind_inv in Hrun. destruct Hrun as [[ys q'] [s2 [Hb Hrun]]].
    inversion Hrun; subst. simpl in Hb.
    apply alloc_item_shape in Ha. destruct Ha as [_ [E1 [E2 _]]].
    destruct (IH _ _ _ _ _ Hb) as [E3 E4]. split; congruence.
Qed.

(** X8: deinit does not look at the items in use: with [k] items of a
    preallocated pool still held, it succeeds and frees the slab, after
    which no access to a held item is valid. *)
Theorem deinit_leaves_dangling cap k s :
  state_wf s -> 1 <= cap <= SIZE_MAX ->
  brk s + cap * isz + ptr_size <= limit s -> (k <= Z.to_nat cap)%nat ->
  exists p0 s0 xs pk s1,
    init_with_cap isz cap s = Ok p0 s0 /\
    alloc_items isz NDEBUG k p0 s0 = Ok (xs, pk) s0 /\ length xs = k /\
    deinit pk s0 = Ok (mkPool NULL 0 0 0 NULL) s1 /\
    forall x, In x xs -> valid_access x s0 = true /\
                         valid_access x s1 = false.
Proof.
  intros Hwf Hcap Hroom Hk. pose proof Hwf as [Hb Hbl].
  assert (Hpos : 0 < cap * isz) by (unfold ptr_size in *; nia).
  destruct (init_with_cap_served isz isz_ok cap s Hwf Hcap Hroom)
    as [s0 [Hi [HI [Hc [Hbs _]]]]].
  set (p0 := mkPool (brk s + cap * isz) 1 1 0 (brk s)) in *.
  replace (Z.to_nat cap) with (k + (Z.to_nat cap - k))%nat in HI by lia.
  rewrite slab_items_app in HI.
  destruct (alloc_items_pop isz NDEBUG isz_ok _ _ _ _ _ HI)
    as [pk [Ha [HIk _]]].
  rewrite length_slab_items in Ha.
  destruct (alloc_items_fields _ _ _ _ _ _ Ha) as [Es En].
  destruct (deinit_one_slab pk s0 (brk s) (cap * isz) (1 * ptr_size))
    as [s1 [Hd [Hb1 _]]];
    rewrite ?Es, ?En; simpl;
    try (unfold NULL; lia); try (rewrite Hbs; simpl; auto); auto.
  { unfold ptr_size. lia. }
  exists p0, s0, (slab_items isz (brk s) 0 k), pk, s1.
  split; [exact Hi|]. split; [exact Ha|].
  split; [apply length_slab_items|]. split; [exact Hd|].
  intros x Hx. split.
  - apply (item_ok_valid isz isz_ok).
    apply (inv_items _ _ _ _ _ HIk), in_or_app. right.
    apply in_or_app. left. apply in_rev. now rewrite rev_involutive.
  - apply in_slab_items in Hx. destruct Hx as [j [Hj ->]].
    destruct (valid_access (item isz (brk s) j) s1) eqn:Hv; [|reflexivity].
    exfalso. apply valid_access_spec in Hv.
    destruct Hv as [_ [b [Hin Hrange]]].
    rewrite Hb1, Es in Hin. unfold remove_block in Hin.
    apply filter_In in Hin. destruct Hin as [Hin H1].
    apply filter_In in Hin. destruct Hin as [Hin H2].
    apply negb_true_iff, Z.eqb_neq in H1, H2.
    rewrite Hbs in Hin. simpl in Hin, H1.
    destruct Hin as [<-|[<-|Hin]]; simpl in *; try congruence.
    rewrite Forall_forall in Hbl. specialize (Hbl b Hin).
    unfold block_ok, item, ptr_size in *. nia.
Qed.

Lemma store_outside a v s :
  (forall b, In b (blocks s) -> ~ (fst b <= a /\ a + ptr_size <= fst b + snd b)) ->
  store a v s = Fault s.
Proof.
  intros H. unfold store.
  destruct (valid_access a s) eqn:Hv; [|reflexivity].
  apply valid_access_spec in Hv. destruct Hv as [_ [b [Hb Hin]]].
  exfalso. exact (H b Hb Hin).
Qed.

(** X9: capacity 0 is not handled: the bound [n_items - 1] of the linking loop
    wraps to SIZE_MAX, so when the allocator serves the empty request with a
    non-null block, get_slab writes past it at once; init_with_cap(0) fails
    in the same way and returns no pool. *)
Theorem zero_capacity_faults s :
  state_wf s -> brk s <= limit s ->
  get_slab isz 0 s = Fault (served 0 isz s) /\
  init_with_cap isz 0 s = Fault (served 0 isz s).
Proof.
  intros [Hb Hbl] Hroom.
  assert (Hg : get_slab isz 0 s = Fault (served 0 isz s)).
  { unfold get_slab.
    rewrite (bind_ok _ _ _ _ _ (mem_Alloc_served 0 isz s ltac:(simpl; lia))).
    destruct (Z.eqb_spec (brk s) NULL) as [E|_]; [unfold NULL in E; lia|].
    assert (Hw : wrap (0 - 1) = Z.succ (SIZE_MAX - 1))
      by (vm_compute; reflexivity).
    rewrite Hw, Z2Nat.inj_succ by (unfold SIZE_MAX; lia).
    cbn [for_loop]. unfold bind at 1 2.
    rewrite store_outside; [reflexivity|].
    intros b Hin. simpl in Hin. unfold item, ptr_size.
    destruct Hin as [<-|Hin]; simpl; [lia|].
    rewrite Forall_forall in Hbl. specialize (Hbl b Hin).
    unfold block_ok in Hbl. lia. }
  split; [exact Hg|]. unfold init_with_cap, bind. now rewrite Hg.
Qed.

Lemma cells_only_store a v : cells_only (store a v).
Proof.
  intros s [] s' H. unfold store in H.
  destruct (valid_access a s); [|discriminate]. inversion H; subst.
  repeat split.
Qed.

Lemma cells_only_bind {A B} (m : M A) (k : A -> M B) :
  cells_only m -> (forall a, cells_only (k a)) -> cells_only (bind m k).
Proof.
  intros Hm Hk s b s2 H. apply bind_inv in H.
  destruct H as [a [s1 [H1 H2]]].
  destruct (Hm _ _ _ H1) as [E1 [E2 [E3 [E4 E5]]]].
  destruct (Hk a _ _ _ H2) as [F1 [F2 [F3 [F4 F5]]]].
  repeat split; congruence.
Qed.

Lemma cells_only_ret {A} (a : A) : cells_only (ret a).
Proof. intros s b s' H. inversion H; subst. repeat split. Qed.

Lemma cells_only_for_loop n body :
  (forall i, cells_only (body i)) ->
  forall i, cells_only (for_loop n i body).
Proof.
  intros Hb. induction n as [|n IH]; intros i; simpl.
  - apply cells_only_ret.
  - apply cells_only_bind; auto.
Qed.


(** X11: when only the slab cannot be allocated, init_with_cap still returns a
    pool, with [err] raised, and deinit of that pool succeeds: it passes the
    null slab entry and then the slab array to the allocator and leaves the
    live blocks as they were before the construction. *)
Theorem slab_refused_then_deinit cap s :
  state_wf s -> limit s < brk s + cap * isz -> brk s + ptr_size <= limit s ->
  exists p0 s0 s1,
    init_with_cap isz cap s = Ok p0 s0 /\ err s0 = csnip_err_NOMEM /\
    first_free p0 = NULL /\
    deinit p0 s0 = Ok (mkPool NULL 0 0 0 NULL) s1 /\
    alloc_log s1 = EvFree (brk s) :: EvFree NULL ::
                   EvAlloc 1 ptr_size (brk s) :: EvAlloc cap isz NULL ::
                   alloc_log s /\
    blocks s1 = remove_block (brk s) (blocks s).
Proof.
  intros Hwf Hno Hroom. pose proof Hwf as [Hb Hbl].
  destruct (init_with_cap_slab_refused isz cap s Hwf Hno Hroom)
    as [s0 [Hi [_ [Hc [Hbs He]]]]].
  assert (Hv : valid_access (brk s) s0 = true).
  { apply valid_access_spec. split; [unfold NULL; lia|].
    exists (brk s, 1 * ptr_size). rewrite Hbs. simpl.
    split; [now left|unfold ptr_size; lia]. }
  assert (Hlog : alloc_log s0 = EvAlloc 1 ptr_size (brk s) ::
                                EvAlloc cap isz NULL :: alloc_log s).
  { unfold init_with_cap in Hi.
    rewrite (bind_ok _ _ _ _ _ (get_slab_refused isz cap s Hno)) in Hi.
    rewrite (bind_ok _ _ _ _ _
               (mem_Alloc_served 1 ptr_size (refused cap isz s)
                  ltac:(simpl; unfold ptr_size in *; lia))) in Hi.
    apply bind_inv in Hi. destruct Hi as [[] [s2 [Hs Hr]]].
    inversion Hr; subst.
    destruct (cells_only_store _ _ _ _ _ Hs) as [_ [_ [_ [_ E]]]].
    rewrite E. reflexivity. }
  eexists _, s0, _. split; [exact Hi|]. split; [exact He|].
  split; [reflexivity|]. split; [|split].
  - unfold deinit. simpl n_slabs. simpl slabs.
    change (Z.to_nat 1) with 1%nat. cbn [for_loop].
    replace (brk s + 0 * ptr_size) with (brk s) by ring.
    unfold bind at 1 2 3. rewrite (load_ok _ _ _ Hv Hc).
    unfold mem_Free at 1. rewrite Z.eqb_refl. unfold ret at 1.
    unfold bind.
    rewrite (mem_Free_live (brk s) (1 * ptr_size));
      [reflexivity|unfold NULL; lia|simpl; rewrite Hbs; now left].
  - simpl. rewrite Hlog. reflexivity.
  - simpl. rewrite Hbs. unfold remove_block. simpl.
    rewrite Z.eqb_refl. reflexivity.
Qed.

(** X12: the free list of every reachable pool is a proper list: it is finite
    and ends in the terminator, no item is on it twice, none of its items is
    held by the client, each lies inside a live block, and the next
    acquisitions return exactly its items, in order, without growth. *)
Theorem free_list_sound p s L :
  reachable isz NDEBUG p s L ->
  exists F,
    chain (cells s) (first_free p) F /\ NoDup F /\
    (forall a, In a F -> ~ In a L /\ item_ok isz s a) /\
    exists p',
      alloc_items isz NDEBUG (length F) p s = Ok (F, p') s /\
      first_free p' = NULL.
Proof.
  intros HR. destruct (reachable_inv isz NDEBUG isz_ok p s L HR) as [F HI].
  exists F. split; [exact (inv_chain _ _ _ _ _ HI)|].
  split; [exact (inv_nodup_free _ _ _ _ _ HI)|]. split.
  - intros a Ha. split; [exact (inv_disjoint _ _ _ _ _ HI a Ha)|].
    apply (inv_items _ _ _ _ _ HI), in_or_app. auto.
  - rewrite <- (app_nil_r F) in HI.
    destruct (alloc_items_pop isz NDEBUG isz_ok _ _ _ _ _ HI)
      as [p' [Ha [HI' _]]].
    exists p'. split; [exact Ha|]. exact (inv_chain _ _ _ _ _ HI').
Qed.

(** X13: one request serves many acquisitions: on a reachable pool with an empty
    free list and room in the arena, the next g = max(8, n_items)
    acquisitions succeed, return the items of one new slab in address
    order, and call the allocator once, for [g] items; after them the free
    list is empty again. *)
Theorem growth_serves_slab p s L :
  reachable isz NDEBUG p s L -> first_free p = NULL ->
  brk s + Z.max 8 (n_items p) * isz <= limit s ->
  exists p' s',
    alloc_items isz NDEBUG (Z.to_nat (Z.max 8 (n_items p))) p s =
      Ok (slab_items isz (brk s) 0 (Z.to_nat (Z.max 8 (n_items p))), p') s' /\
    alloc_log s' = EvAlloc (Z.max 8 (n_items p)) isz (brk s) :: alloc_log s /\
    first_free p' = NULL.
Proof.
  intros HR Hf Hroom.
  destruct (reachable_inv isz NDEBUG isz_ok p s L HR) as [F HI].
  pose proof (inv_free_list_empty isz _ _ _ _ HI Hf) as ->.
  destruct (alloc_item_grow isz NDEBUG isz_ok p s L HI Hroom)
    as [c [nx [Ha [HI1 _]]]].
  set (g := Z.max 8 (n_items p)) in *.
  rewrite <- (app_nil_r (slab_items isz (brk s) 1 (Z.to_nat (g - 1)))) in HI1.
  destruct (alloc_items_pop isz NDEBUG isz_ok _ _ _ _ _ HI1)
    as [p' [Hb [HI2 _]]].
  rewrite length_slab_items in Hb.
  exists p', (set_cells c (served g isz s)).
  split; [|split; [reflexivity|exact (inv_chain _ _ _ _ _ HI2)]].
  replace (Z.to_nat g) with (S (Z.to_nat (g - 1))) by lia.
  change (slab_items isz (brk s) 0 (S (Z.to_nat (g - 1))))
    with (item isz (brk s) 0 ::
          slab_items isz (brk s) (0 + 1) (Z.to_nat (g - 1))).
  replace (item isz (brk s) 0) with (brk s) by (unfold item; ring).
  simpl alloc_items. rewrite (bind_ok _ _ _ _ _ Ha). simpl snd.
  rewrite (bind_ok _ _ _ _ _ Hb). reflexivity.
Qed.

Lemma run_ops_count ops : forall p s p' s',
  run_ops isz NDEBUG ops p s = Ok p' s' ->
  0 <= n_items p -> n_items p + acquisitions ops <= SIZE_MAX ->
  n_items p' = n_items p + acquisitions ops.
Proof.
  induction ops as [|[|e] r IH]; intros p s p' s' Hrun H0 Hmax;
    cbn [run_ops acquisitions] in *.
  - inversion Hrun; subst. lia.
  - apply bind_inv in Hrun. destruct Hrun as [[x q] [s1 [H1 Hrun]]].
    pose proof (acquisitions_nonneg r).
    apply alloc_item_shape in H1. destruct H1 as [_ [_ [_ [_ Hq]]]].
    rewrite wrap_small in Hq by lia. cbn [snd] in Hrun.
    rewrite (IH _ _ _ _ Hrun); lia.
  - apply bind_inv in Hrun. destruct Hrun as [q [s1 [H1 Hrun]]].
    apply free_item_shape in H1. subst q. simpl in Hrun.
    pose proof (acquisitions_nonneg r).
    rewrite (IH _ _ _ _ Hrun); simpl; lia.
Qed.

(** X14: slab sizing counts every acquisition ever made, not the items in
    use: after any run of acquisitions and releases from the empty pool,
    an acquisition that finds the free list empty asks the allocator for
    max(8, number of acquisitions in the run) items, however many of them
    have been released. *)
Theorem growth_counts_all_acquisitions ops s p' s' :
  run_ops isz NDEBUG ops (mkPool NULL 0 0 0 NULL) s = Ok p' s' ->
  acquisitions ops <= SIZE_MAX -> first_free p' = NULL ->
  exists r,
    alloc_log (final_state (alloc_item isz NDEBUG p' s')) =
    EvAlloc (Z.max 8 (acquisitions ops)) isz r :: alloc_log s'.
Proof.
  intros Hrun Hmax Hf.
  pose proof (run_ops_count ops _ _ _ _ Hrun) as Hn. simpl in Hn.
  rewrite <- Hn by lia. apply alloc_item_log. exact Hf.
Qed.

(** X15: every item the client holds, and every item that alloc_item
    returns, is a non-null address whose sizeof(itemtype) bytes lie inside
    one live block. *)
Theorem held_items_valid p s L :
  reachable isz NDEBUG p s L ->
  (forall a, In a L -> item_ok isz s a) /\
  (forall x p' s',
     alloc_item isz NDEBUG p s = Ok (x, p') s' ->
     item_ok isz s' x /\ forall a, In a L -> item_ok isz s' a).
Proof.
  intros HR. destruct (reachable_inv isz NDEBUG isz_ok p s L HR) as [F HI].
  split.
  - intros a Ha. apply (inv_items _ _ _ _ _ HI), in_or_app. auto.
  - intros x p' s' Hrun.
    destruct (alloc_item_inv isz NDEBUG isz_ok _ _ _ _ _ _ _ HI Hrun)
      as [F' HI'].
    split.
    + apply (inv_items _ _ _ _ _ HI'), in_or_app. right. now left.
    + intros a Ha. apply (inv_items _ _ _ _ _ HI'), in_or_app.
      right. now right.
Qed.

(** X16: what a successful alloc_item has done to the allocator: with a
    non-empty free list, nothing at all; with an empty one, exactly one
    request, for max(8, n_items) items, whose block is now live and whose
    base is the item returned.  It never frees a block. *)
Theorem alloc_item_outcome p s x p' s' :
  alloc_item isz NDEBUG p s = Ok (x, p') s' ->
  (first_free p <> NULL /\ s' = s) \/
  (first_free p = NULL /\ x = brk s /\
   blocks s' = (x, Z.max 8 (n_items p) * isz) :: blocks s /\
   alloc_log s' = EvAlloc (Z.max 8 (n_items p)) isz x :: alloc_log s /\
   brk s' = brk s + Z.max 8 (n_items p) * isz).
Proof.
  intros Hrun. destruct (Z.eq_dec (first_free p) NULL) as [Hf|Hf].
  - right. split; [exact Hf|]. unfold alloc_item in Hrun.
    apply bind_inv in Hrun. destruct Hrun as [q [s1 [Hg Hp]]].
    apply pop_inv in Hp. destruct Hp as [-> [-> [Hv _]]].
    apply valid_access_spec in Hv. destruct Hv as [Hn _].
    unfold grow in Hg. rewrite Hf, Z.eqb_refl in Hg. cbv zeta in Hg.
    rewrite growth_size in Hg. set (g := Z.max 8 (n_items p)) in *.
    apply bind_inv in Hg. destruct Hg as [sl [s2 [Hs Hr]]].
    inversion Hr; subst; clear Hr. simpl in Hn. simpl first_free.
    unfold get_slab in Hs. apply bind_inv in Hs.
    destruct Hs as [r [s3 [Ha Hrest]]].
    destruct (r =? NULL) eqn:Er.
    { inversion Hrest; subst. congruence. }
    assert (Hco : cells_only
              (for_loop (Z.to_nat (wrap (g - 1))) 0
                 (fun i => store (item isz r i) (item isz r (i + 1))) ;;;
               store (item isz r (wrap (g - 1))) NULL ;;;
               ret r)).
    { apply cells_only_bind;
        [apply cells_only_for_loop; intros i; apply cells_only_store|].
      intros _. apply cells_only_bind; [apply cells_only_store|].
      intros _. apply cells_only_ret. }
    destruct (Hco _ _ _ Hrest) as [Eb [_ [Ebl [_ Elog]]]].
    assert (Esl : sl = r).
    { apply bind_inv in Hrest. destruct Hrest as [[] [s4 [_ Hrest]]].
      apply bind_inv in Hrest. destruct Hrest as [[] [s5 [_ Hrest]]].
      now inversion Hrest. }
    subst sl. unfold mem_Alloc in Ha. cbv zeta in Ha.
    destruct (_ <=? _); inversion Ha; subst; simpl in *.
    + repeat split; congruence.
    + discriminate.
  - left. split; [exact Hf|].
    apply (alloc_item_head p s x p' s' Hf) in Hrun. tauto.
Qed.

(** X17: deinit frees at most one slab: on every reachable pool it returns
    after passing to the allocator either the null slab array alone, or the
    one entry of the slab array and then the array itself - however many
    slabs the acquisitions have allocated. *)
Theorem deinit_frees_one_slab p s L :
  reachable isz NDEBUG p s L ->
  exists s',
    deinit p s = Ok (mkPool NULL 0 0 0 NULL) s' /\
    ((slabs p = NULL /\ alloc_log s' = EvFree NULL :: alloc_log s) \/
     (slabs p <> NULL /\ exists sl,
        get (cells s) (slabs p) = Some sl /\
        alloc_log s' = EvFree (slabs p) :: EvFree sl :: alloc_log s)).
Proof.
  intros HR.
  destruct (reachable_index isz NDEBUG isz_ok p s L HR) as [F [_ HX]].
  destruct HX as [[H1 H2]|[H1 [H2 [H3 [_ [sl [H5 H6]]]]]]].
  - exists (log_event (EvFree NULL) s). split.
    + unfold deinit. rewrite H1, H2. reflexivity.
    + left. split; [exact H1|reflexivity].
  - assert (Hv : valid_access (slabs p) s = true).
    { apply valid_access_spec. split; [exact H2|].
      exists (slabs p, 1 * ptr_size). simpl. split; [exact H3|].
      unfold ptr_size. lia. }
    destruct H6 as [->|[Hne [sz Hsz]]].
    + eexists. split.
      * unfold deinit. rewrite H1. change (Z.to_nat 1) with 1%nat.
        cbn [for_loop]. replace (slabs p + 0 * ptr_size) with (slabs p) by ring.
        unfold bind at 1 2 3. rewrite (load_ok _ _ _ Hv H5).
        unfold mem_Free at 1. rewrite Z.eqb_refl. unfold ret at 1.
        unfold bind.
        rewrite (mem_Free_live (slabs p) (1 * ptr_size)); [reflexivity|exact H2|].
        exact H3.
      * right. split; [exact H2|]. exists NULL. split; [exact H5|reflexivity].
    + destruct (Z.eq_dec sl NULL) as [->|Hsl].
      * eexists. split.
        -- unfold deinit. rewrite H1. change (Z.to_nat 1) with 1%nat.
           cbn [for_loop].
           replace (slabs p + 0 * ptr_size) with (slabs p) by ring.
           unfold bind at 1 2 3. rewrite (load_ok _ _ _ Hv H5).
           unfold mem_Free at 1. rewrite Z.eqb_refl. unfold ret at 1.
           unfold bind.
           rewrite (mem_Free_live (slabs p) (1 * ptr_size));
             [reflexivity|exact H2|exact H3].
        -- right. split; [exact H2|]. exists NULL.
           split; [exact H5|reflexivity].
      * destruct (deinit_one_slab p s sl sz (1 * ptr_size))
          as [s2 [Hd [_ [Hl _]]]]; auto; [unfold ptr_size; lia|].
        exists s2. split; [exact Hd|]. right. split; [exact H2|].
        exists sl. split; [exact H5|exact Hl].
Qed.

End MorePoolProperties.

(** ** The further properties on the pool of 16-byte items *)

Lemma empty_pool_reachable :
  reachable 16 false empty_pool (arena 4096 8192) [].
Proof.
  apply (reach_init_empty 16 false (arena 4096 8192) empty_pool
                          (arena 4096 8192)); [|reflexivity].
  apply arena_wf. lia.
Qed.


Lemma double_release_cycles_witness :
  exists p1 s1 p2 s2,
    free_item pool1 4096 state1 = Ok p1 s1 /\
    free_item p1 4096 s1 = Ok p2 s2 /\
    forall n, exists p',
      alloc_items 16 false n p2 s2 = Ok (repeat 4096 n, p') s2 /\
      first_free p' = 4096.
Proof.
  apply (double_release_cycles 16 false pool1 4096 state1).
  vm_compute. reflexivity.
Defined.

Lemma prealloc_serves_cap_witness :
  exists p0 s0 p',
    init_with_cap 16 4 (arena 4096 8192) = Ok p0 s0 /\
    alloc_log s0 = EvAlloc 1 ptr_size (brk (arena 4096 8192) + 4 * 16) ::
                   EvAlloc 4 16 (brk (arena 4096 8192)) ::
                   alloc_log (arena 4096 8192) /\
    alloc_items 16 false (Z.to_nat 4) p0 s0 =
      Ok (slab_items 16 (brk (arena 4096 8192)) 0 (Z.to_nat 4), p') s0 /\
    first_free p' = NULL /\ n_items p' = 4.
Proof.
  apply (prealloc_serves_cap 16 false item16_ok 4 (arena 4096 8192)).
  - apply arena_wf. lia.
  - split; vm_compute; discriminate.
  - vm_compute. discriminate.
Defined.

Lemma acquire_only_growth_witness :
  exists xs p' s' F C,
    alloc_items 16 false 20 (mkPool NULL 0 0 0 NULL) (arena 4096 8192) =
      Ok (xs, p') s' /\
    n_items p' = Z.of_nat 20 /\ tight C (Z.of_nat 20) /\
    brk s' = brk (arena 4096 8192) + C * 16 /\
    err s' = err (arena 4096 8192) /\
    chain (cells s') (first_free p') F /\
    Z.of_nat (length F) = C - Z.of_nat 20 /\ NoDup xs.
Proof.
  apply (acquire_only_growth 16 false item16_ok 20 (arena 4096 8192)).
  - apply arena_wf. lia.
  - vm_compute. discriminate.
  - vm_compute. discriminate.
Defined.

Lemma init_then_deinit_witness :
  exists p0 s0 s1,
    init_with_cap 16 4 (arena 4096 8192) = Ok p0 s0 /\
    deinit p0 s0 = Ok (mkPool NULL 0 0 0 NULL) s1 /\
    alloc_log s1 =
      EvFree (brk (arena 4096 8192) + 4 * 16) ::
      EvFree (brk (arena 4096 8192)) ::
      EvAlloc 1 ptr_size (brk (arena 4096 8192) + 4 * 16) ::
      EvAlloc 4 16 (brk (arena 4096 8192)) :: alloc_log (arena 4096 8192) /\
    blocks s1 = remove_block (brk (arena 4096 8192))
                             (blocks (arena 4096 8192)) /\
    ((forall b, In b (blocks (arena 4096 8192)) ->
                fst b <> brk (arena 4096 8192)) ->
     blocks s1 = blocks (arena 4096 8192)) /\
    err s1 = err (arena 4096 8192).
Proof.
  apply (init_then_deinit 16 item16_ok 4 (arena 4096 8192)).
  - apply arena_wf. lia.
  - split; vm_compute; discriminate.
  - vm_compute. discriminate.
Defined.

Lemma init_with_cap_reports_witness :
  n_slabs (mkPool 4096 1 1 0 NULL) = 1 /\
  cap_slabs (mkPool 4096 1 1 0 NULL) = 1 /\
  n_items (mkPool 4096 1 1 0 NULL) = 0 /\
  slabs (mkPool 4096 1 1 0 NULL) <> NULL /\
  ((brk (arena 4096 4104) + 4 * 16 <= limit (arena 4096 4104) /\
    first_free (mkPool 4096 1 1 0 NULL) = brk (arena 4096 4104) /\
    first_free (mkPool 4096 1 1 0 NULL) <> NULL /\
    err state_no_slab = err (arena 4096 4104)) \/
   (limit (arena 4096 4104) < brk (arena 4096 4104) + 4 * 16 /\
    first_free (mkPool 4096 1 1 0 NULL) = NULL /\
    err state_no_slab = csnip_err_NOMEM)).
Proof.
  apply (init_with_cap_reports 16 item16_ok 4 (arena 4096 4104)
                               (mkPool 4096 1 1 0 NULL) state_no_slab).
  - apply arena_wf. lia.
  - split; vm_compute; [reflexivity|discriminate].
  - vm_compute. reflexivity.
Defined.

Lemma held_data_untouched_witness :
  (forall x p' s',
     alloc_item 16 false pool1
                (set_cells (write_cell 4104 777 (cells state1)) state1) =
       Ok (x, p') s' ->
     load 4104 s' = Ok 777 s') /\
  (forall e' p' s',
     In e' [4096] -> e' <> 4096 ->
     free_item pool1 e'
               (set_cells (write_cell 4104 777 (cells state1)) state1) =
       Ok p' s' ->
     load 4104 s' = Ok 777 s').
Proof.
  apply (held_data_untouched 16 false item16_ok pool1
           (set_cells (write_cell 4104 777 (cells state1)) state1)
           [4096] 4096 4104 777).
  - apply (reach_write 16 false pool1 state1 [4096] 4096 4104 777).
    + exact pool1_reachable.
    + now left.
    + vm_compute. discriminate.
    + vm_compute. discriminate.
    + vm_compute. reflexivity.
  - now left.
  - vm_compute. discriminate.
  - vm_compute. discriminate.
  - vm_compute. reflexivity.
Defined.

Lemma deinit_leaves_dangling_witness :
  exists p0 s0 xs pk s1,
    init_with_cap 16 4 (arena 4096 8192) = Ok p0 s0 /\
    alloc_items 16 false 3 p0 s0 = Ok (xs, pk) s0 /\ length xs = 3%nat /\
    deinit pk s0 = Ok (mkPool NULL 0 0 0 NULL) s1 /\
    forall x, In x xs -> valid_access x s0 = true /\
                         valid_access x s1 = false.
Proof.
  apply (deinit_leaves_dangling 16 false item16_ok 4 3 (arena 4096 8192)).
  - apply arena_wf. lia.
  - split; vm_compute; discriminate.
  - vm_compute. discriminate.
  - vm_compute. repeat constructor.
Defined.

Lemma zero_capacity_faults_witness :
  get_slab 16 0 (arena 4096 8192) = Fault (served 0 16 (arena 4096 8192)) /\
  init_with_cap 16 0 (arena 4096 8192) =
    Fault (served 0 16 (arena 4096 8192)).
Proof.
  apply (zero_capacity_faults 16 (arena 4096 8192)).
  - apply arena_wf. lia.
  - vm_compute. discriminate.
Defined.


Lemma slab_refused_then_deinit_witness :
  exists p0 s0 s1,
    init_with_cap 16 4 (arena 4096 4104) = Ok p0 s0 /\
    err s0 = csnip_err_NOMEM /\ first_free p0 = NULL /\
    deinit p0 s0 = Ok (mkPool NULL 0 0 0 NULL) s1 /\
    alloc_log s1 =
      EvFree (brk (arena 4096 4104)) :: EvFree NULL ::
      EvAlloc 1 ptr_size (brk (arena 4096 4104)) :: EvAlloc 4 16 NULL ::
      alloc_log (arena 4096 4104) /\
    blocks s1 = remove_block (brk (arena 4096 4104))
                             (blocks (arena 4096 4104)).
Proof.
  apply (slab_refused_then_deinit 16 4 (arena 4096 4104)).
  - apply arena_wf. lia.
  - vm_compute. reflexivity.
  - vm_compute. discriminate.
Defined.

Lemma free_list_sound_witness :
  exists F,
    chain (cells state1) (first_free pool1) F /\ NoDup F /\
    (forall a, In a F -> ~ In a [4096] /\ item_ok 16 state1 a) /\
    exists p',
      alloc_items 16 false (length F) pool1 state1 = Ok (F, p') state1 /\
      first_free p' = NULL.
Proof.
  apply (free_list_sound 16 false item16_ok pool1 state1 [4096]).
  exact pool1_reachable.
Defined.

Lemma growth_serves_slab_witness :
  exists p' s',
    alloc_items 16 false (Z.to_nat (Z.max 8 (n_items empty_pool))) empty_pool
                (arena 4096 8192) =
      Ok (slab_items 16 (brk (arena 4096 8192)) 0
                     (Z.to_nat (Z.max 8 (n_items empty_pool))), p') s' /\
    alloc_log s' =
      EvAlloc (Z.max 8 (n_items empty_pool)) 16 (brk (arena 4096 8192)) ::
      alloc_log (arena 4096 8192) /\
    first_free p' = NULL.
Proof.
  apply (growth_serves_slab 16 false item16_ok empty_pool (arena 4096 8192)
                            []).
  - exact empty_pool_reachable.
  - reflexivity.
  - vm_compute. discriminate.
Defined.

Lemma growth_counts_all_acquisitions_witness :
  exists r,
    alloc_log (final_state (alloc_item 16 false pool_churn state_churn)) =
    EvAlloc (Z.max 8 (acquisitions ops_churn)) 16 r :: alloc_log state_churn.
Proof.
  apply (growth_counts_all_acquisitions 16 false ops_churn (arena 4096 8192)
                                        pool_churn state_churn).
  - vm_compute. reflexivity.
  - vm_compute. discriminate.
  - vm_compute. reflexivity.
Defined.

Lemma held_items_valid_witness :
  (forall a, In a [4096] -> item_ok 16 state1 a) /\
  (forall x p' s',
     alloc_item 16 false pool1 state1 = Ok (x, p') s' ->
     item_ok 16 s' x /\ forall a, In a [4096] -> item_ok 16 s' a).
Proof.
  apply (held_items_valid 16 false item16_ok pool1 state1 [4096]).
  exact pool1_reachable.
Defined.

Lemma alloc_item_outcome_witness :
  (first_free empty_pool <> NULL /\ state1 = arena 4096 8192) \/
  (first_free empty_pool = NULL /\ 4096 = brk (arena 4096 8192) /\
   blocks state1 =
     (4096, Z.max 8 (n_items empty_pool) * 16) :: blocks (arena 4096 8192) /\
   alloc_log state1 =
     EvAlloc (Z.max 8 (n_items empty_pool)) 16 4096 ::
     alloc_log (arena 4096 8192) /\
   brk state1 =
     brk (arena 4096 8192) + Z.max 8 (n_items empty_pool) * 16).
Proof.
  apply (alloc_item_outcome 16 false empty_pool (arena 4096 8192) 4096
                            pool1 state1).
  exact first_alloc_ok.
Defined.

Lemma deinit_frees_one_slab_witness :
  exists s',
    deinit pool_used state_used = Ok (mkPool NULL 0 0 0 NULL) s' /\
    ((slabs pool_used = NULL /\
      alloc_log s' = EvFree NULL :: alloc_log state_used) \/
     (slabs pool_used <> NULL /\ exists sl,
        get (cells state_used) (slabs pool_used) = Some sl /\
        alloc_log s' =
          EvFree (slabs pool_used) :: EvFree sl :: alloc_log state_used)).
Proof.
  apply (deinit_frees_one_slab 16 false item16_ok pool_used state_used []).
  assert (H0 : reachable 16 false (mkPool 4160 1 1 0 4096)
                 (final_state (init_with_cap 16 4 (arena 4096 8192))) []).
  { apply (reach_init_with_cap 16 false 4 (arena 4096 8192)).
    - apply arena_wf. lia.
    - split; vm_compute; [reflexivity|discriminate].
    - vm_compute. reflexivity. }
  assert (Hstep : forall p s L x p' s',
             reachable 16 false p s L ->
             alloc_item 16 false p s = Ok (x, p') s' ->
             reachable 16 false p' s' (x :: L))
    by (intros; eapply reach_alloc; eauto).
  assert (Hfree : forall p s L e p' s',
             reachable 16 false p s L -> In e L ->
             free_item p e s = Ok p' s' ->
             reachable 16 false p' s' (remove Z.eq_dec e L))
    by (intros; eapply reach_free; eauto).
  pose proof (Hstep _ _ _ 4096 (mkPool 4160 1 1 1 4112)
                    (final_state (init_with_cap 16 4 (arena 4096 8192))) H0
                    ltac:(vm_compute; reflexivity)) as H1.
  pose proof (Hstep _ _ _ 4112 (mkPool 4160 1 1 2 4128) _ H1
                    ltac:(vm_compute; reflexivity)) as H2.
  pose proof (Hstep _ _ _ 4128 (mkPool 4160 1 1 3 4144) _ H2
                    ltac:(vm_compute; reflexivity)) as H3.
  pose proof (Hstep _ _ _ 4144 (mkPool 4160 1 1 4 0) _ H3
                    ltac:(vm_compute; reflexivity)) as H4.
  pose proof (Hstep _ _ _ 4168 (mkPool 4160 1 1 5 4184)
                    (final_state
                       (alloc_item 16 false (mkPool 4160 1 1 4 0)
                          (final_state
                             (init_with_cap 16 4 (arena 4096 8192)))))
                    H4 ltac:(vm_compute; reflexivity)) as H5.
  set (s5 := final_state
               (alloc_item 16 false (mkPool 4160 1 1 4 0)
                  (final_state (init_with_cap 16 4 (arena 4096 8192)))))
    in *.
  pose proof (Hfree _ _ _ 4096 (mkPool 4160 1 1 5 4096)
                (final_state (free_item (mkPool 4160 1 1 5 4184) 4096 s5))
                H5 ltac:(simpl; tauto) ltac:(vm_compute; reflexivity)) as H6.
  set (s6 := final_state (free_item (mkPool 4160 1 1 5 4184) 4096 s5)) in *.
  pose proof (Hfree _ _ _ 4112 (mkPool 4160 1 1 5 4112)
                (final_state (free_item (mkPool 4160 1 1 5 4096) 4112 s6))
                H6 ltac:(vm_compute; tauto) ltac:(vm_compute; reflexivity))
    as H7.
  set (s7 := final_state (free_item (mkPool 4160 1 1 5 4096) 4112 s6)) in *.
  pose proof (Hfree _ _ _ 4128 (mkPool 4160 1 1 5 4128)
                (final_state (free_item (mkPool 4160 1 1 5 4112) 4128 s7))
                H7 ltac:(vm_compute; tauto) ltac:(vm_compute; reflexivity))
    as H8.
  set (s8 := final_state (free_item (mkPool 4160 1 1 5 4112) 4128 s7)) in *.
  pose proof (Hfree _ _ _ 4144 (mkPool 4160 1 1 5 4144)
                (final_state (free_item (mkPool 4160 1 1 5 4128) 4144 s8))
                H8 ltac:(vm_compute; tauto) ltac:(vm_compute; reflexivity))
    as H9.
  set (s9 := final_state (free_item (mkPool 4160 1 1 5 4128) 4144 s8)) in *.
  pose proof (Hfree _ _ _ 4168 (mkPool 4160 1 1 5 4168)
                (final_state (free_item (mkPool 4160 1 1 5 4144) 4168 s9))
                H9 ltac:(vm_compute; tauto) ltac:(vm_compute; reflexivity))
    as H10.
  vm_compute in H10. exact H10.
Defined.
